(** * typescript-action: the [run] pipeline of [src/main.ts]

    A shallow embedding of the action's single control flow
    (input resolution, repository metadata fetch, delay, output
    composition, top-level error handler) together with the properties
    its specification states about it.

    Conventions of the embedding.
    - A JavaScript string is a [string]: a sequence of code units below
      256.  Every literal of the program is ASCII.
    - A JavaScript Number produced by [parseInt] is [NaN], an infinity,
      or a binary64 value that is an integer, held as that integer;
      [parseInt] rounds to the nearest such value, ties to even, and
      [-0] is [Int 0].
    - The collaborators the program only calls ([core.getInput],
      [github.getOctokit], [octokit.rest.repos.get], [github.context],
      [wait], the clock, the engine's stack capture and Number printing)
      are the fields of a [World].
    - The diagnostics and output sinks ([core.info], [core.warning],
      [core.error], [core.debug], [core.setOutput], [core.setFailed])
      never throw; each call is recorded as an [Event], in program order.
    - [await] on a promise is sequential: a promise either resolves with
      a value or rejects with a thrown value. *)

From Stdlib Require Import String Ascii List ZArith Lia Bool DecimalString.
Import ListNotations.
Local Open Scope string_scope.
Local Open Scope Z_scope.

(** ** JavaScript strings *)

Module JSString.

(** [s.includes(search)]: [search] occurs in [s] as a contiguous run. *)
Fixpoint includes (s search : string) : bool :=
  if String.prefix search s then true
  else match s with
       | EmptyString => false
       | String _ rest => includes rest search
       end.

(** Code units below 256 that are [WhiteSpace] or [LineTerminator]:
    TAB, LF, VT, FF, CR, SP and NBSP. *)
Definition isWhiteSpace (c : ascii) : bool :=
  let n := nat_of_ascii c in
  (Nat.eqb n 9 || Nat.eqb n 10 || Nat.eqb n 11 || Nat.eqb n 12
   || Nat.eqb n 13 || Nat.eqb n 32 || Nat.eqb n 160)%bool.

(** [TrimString(s, start)]. *)
Fixpoint trimStart (s : string) : string :=
  match s with
  | EmptyString => EmptyString
  | String c rest => if isWhiteSpace c then trimStart rest else s
  end.

Fixpoint rev_onto (s acc : string) : string :=
  match s with
  | EmptyString => acc
  | String c rest => rev_onto rest (String c acc)
  end.

Definition rev (s : string) : string := rev_onto s EmptyString.

Definition trimEnd (s : string) : string := rev (trimStart (rev s)).

(** [s.trim()]. *)
Definition trim (s : string) : string := trimEnd (trimStart s).

Fixpoint whitespaceOnly (s : string) : bool :=
  match s with
  | EmptyString => true
  | String c rest => (isWhiteSpace c && whitespaceOnly rest)%bool
  end.

(** Truthiness of a string: every string but the empty one. *)
Definition truthy (s : string) : bool :=
  match s with EmptyString => false | String _ _ => true end.

(** [a || b] on strings. *)
Definition or_else (a b : string) : string := if truthy a then a else b.

End JSString.

(** ** JavaScript numbers, as far as [parseInt] produces them *)

Inductive Number : Type :=
| NaN
| Int (z : Z)
| PosInfinity
| NegInfinity.

Definition isNaN (n : Number) : bool :=
  match n with NaN => true | _ => false end.

(** [n < 0]: false whenever an operand is [NaN]. *)
Definition lt_zero (n : Number) : bool :=
  match n with
  | NaN => false
  | Int z => z <? 0
  | PosInfinity => false
  | NegInfinity => true
  end.

(** [Number.isInteger(n)] *)
Definition isInteger (n : Number) : bool :=
  match n with Int _ => true | _ => false end.

Module Double.

(** The binary64 value nearest to the integer [m], for [0 <= m]: [m]
    itself below [2^53]; above, [m] has more than 53 bits and is
    rounded to 53 of them, a tie going to the even one; [None] when the
    result is [2^1024], beyond the largest finite value. *)
Definition roundMagnitude (m : Z) : option Z :=
  if m <? 2 ^ 53 then Some m
  else
    let ulp := 2 ^ (Z.log2 m - 52) in
    let q := m / ulp in
    let r := m mod ulp in
    let half := ulp / 2 in
    let q' :=
      if r <? half then q
      else if half <? r then q + 1
      else if Z.even q then q
      else q + 1 in
    if q' * ulp <? 2 ^ 1024 then Some (q' * ulp) else None.

(** The Number value of a mathematical integer. *)
Definition ofInteger (x : Z) : Number :=
  if 0 <=? x then
    match roundMagnitude x with
    | Some v => Int v
    | None => PosInfinity
    end
  else
    match roundMagnitude (- x) with
    | Some v => Int (- v)
    | None => NegInfinity
    end.

End Double.

Module ParseInt.

(** Value of a code unit as a digit, in any radix up to 36. *)
Definition digitValue (c : ascii) : option Z :=
  let n := Z.of_nat (nat_of_ascii c) in
  if (48 <=? n) && (n <=? 57) then Some (n - 48)
  else if (97 <=? n) && (n <=? 122) then Some (n - 97 + 10)
  else if (65 <=? n) && (n <=? 90) then Some (n - 65 + 10)
  else None.

Definition radixDigit (R : Z) (c : ascii) : option Z :=
  match digitValue c with
  | Some d => if d <? R then Some d else None
  | None => None
  end.

(** Reads the longest prefix of radix-[R] digits; [acc] is the value
    read so far and [seen] tells whether a digit was read. *)
Fixpoint digits (R : Z) (s : string) (acc : Z) (seen : bool) : option Z :=
  match s with
  | EmptyString => if seen then Some acc else None
  | String c rest =>
      match radixDigit R c with
      | Some d => digits R rest (acc * R + d) true
      | None => if seen then Some acc else None
      end
  end.

Definition stripSign (s : string) : Z * string :=
  match s with
  | String "-" rest => (-1, rest)
  | String "+" rest => (1, rest)
  | _ => (1, s)
  end.

Definition hexPrefix (s : string) : option string :=
  match s with
  | String "0" (String "x" rest) => Some rest
  | String "0" (String "X" rest) => Some rest
  | _ => None
  end.

(** [parseInt(string, radix)] of ECMAScript, step by step: trim the
    leading white space, read the sign, settle the radix (a [0x]
    prefix is stripped only for radix 0 or 16), read the longest digit
    prefix, [NaN] when it is empty, and else the Number value of the
    signed integer read.  ECMAScript lets an engine replace the digits
    after the twentieth by zeros; the rounding here is the exact one,
    which is what Node does. *)
Definition parseInt (input : string) (radix : Z) : Number :=
  let S0 := JSString.trimStart input in
  let '(sign, S1) := stripSign S0 in
  if negb (radix =? 0) && ((radix <? 2) || (36 <? radix)) then NaN
  else
    let R0 := if radix =? 0 then 10 else radix in
    let stripPrefix := (radix =? 0) || (radix =? 16) in
    let '(R, S2) :=
      match hexPrefix S1 with
      | Some rest => if stripPrefix then (16, rest) else (R0, S1)
      | None => (R0, S1)
      end in
    match digits R S2 0 false with
    | Some mathInt => Double.ofInteger (sign * mathInt)
    | None => NaN
    end.

End ParseInt.

Definition parseInt := ParseInt.parseInt.

(** ** Thrown values, events and the collaborators *)

(** [new Error(message)]: the message and the optional stack trace. *)
Record ErrorObject : Type := mkError {
  message : string;
  stack : option string
}.

(** Values other than [Error] objects that a [throw] can carry. *)
Inductive JSValue : Type :=
| VUndefined
| VNull
| VBoolean (b : bool)
| VNumber (n : Number)
| VString (s : string)
| VObject (description : string).

(** What a [catch] clause receives; [ThrownError] is exactly the case
    [error instanceof Error]. *)
Inductive Thrown : Type :=
| ThrownError (e : ErrorObject)
| ThrownValue (v : JSValue).

(** How a call, or an awaited promise, completes. *)
Inductive Completion (A : Type) : Type :=
| Normal (a : A)
| Throw (t : Thrown).
Arguments Normal {A} a.
Arguments Throw {A} t.

(** The part of the response of [repos.get] that the fixture fills in. *)
Record RepoData : Type := mkRepoData {
  full_name : string;
  repo_name : string;
  owner_login : string
}.

(** The client returned by [github.getOctokit]; [repos_get owner repo]
    is [await octokit.rest.repos.get({owner, repo})]. *)
Record Octokit : Type := mkOctokit {
  repos_get : string -> string -> Completion RepoData
}.

Record World : Type := mkWorld {
  (** [core.getInput(name)] *)
  getInput : string -> string;
  (** [github.context.repo.owner] and [github.context.repo.repo] *)
  context_repo_owner : string;
  context_repo_repo : string;
  (** [github.getOctokit(token)] *)
  getOctokit : string -> Completion Octokit;
  (** [await wait(ms)]; the resolved value is dropped by the caller *)
  wait : Number -> Completion unit;
  (** [new Date().toTimeString()] when the outputs are composed *)
  toTimeString : string;
  (** the [stack] the engine attaches to [new Error(message)] *)
  captureStack : string -> option string;
  (** the text of a Number inside a template literal *)
  numberToString : Number -> string
}.

(** [core.getInput(name)] of [@actions/core], called without options,
    as the action calls it, where [raw name] is the environment
    variable the library reads for [name], [None] when it is unset:
    [const val = process.env[...] || ''] and then [return val.trim()]. *)
Definition core_getInput (raw : string -> option string) (name : string)
    : string :=
  JSString.trim
    (match raw name with
     | Some val => JSString.or_else val ""
     | None => ""
     end).

Inductive Event : Type :=
| Info (msg : string)
| Warning (msg : string)
| ErrorLog (msg : string)
| Debug (msg : string)
| SetOutput (name value : string)
| SetFailed (msg : string)
| CallGetOctokit (token : string)
| CallReposGet (owner repo : string)
| CallWait (ms : Number).

(** ** Computations: a trace of events and a completion *)

Definition Action (A : Type) : Type := (list Event * Completion A)%type.

Module ActionMonad.

Definition ret {A} (a : A) : Action A := ([], Normal a).

Definition throw {A} (t : Thrown) : Action A := ([], Throw t).

Definition emit (e : Event) : Action unit := ([e], Normal tt).

Definition bind {A B} (m : Action A) (k : A -> Action B) : Action B :=
  match m with
  | (tr, Normal a) => let '(tr', c) := k a in ((tr ++ tr')%list, c)
  | (tr, Throw t) => (tr, Throw t)
  end.

(** [try { body } catch (error) { handler }] *)
Definition try_catch {A} (body : Action A) (handler : Thrown -> Action A)
  : Action A :=
  match body with
  | (tr, Normal a) => (tr, Normal a)
  | (tr, Throw t) => let '(tr', c) := handler t in ((tr ++ tr')%list, c)
  end.

(** A call to a collaborator: the call is recorded, then it completes. *)
Definition call {A} (e : Event) (c : Completion A) : Action A := ([e], c).

Definition trace {A} (m : Action A) : list Event := fst m.
Definition completion {A} (m : Action A) : Completion A := snd m.

End ActionMonad.
Import ActionMonad.

Declare Scope action_scope.
Delimit Scope action_scope with action.
Notation "x <- m ;; k" := (bind m (fun x => k))
  (at level 61, m at next level, right associativity) : action_scope.
Notation "m ;; k" := (bind m (fun _ => k))
  (at level 61, right associativity) : action_scope.
Local Open Scope action_scope.

(** ** The program, [src/main.ts] *)

Record ActionInputs : Type := mkInputs {
  token : string;
  milliseconds : string;
  exampleInput : string
}.

Record ActionOutputs : Type := mkOutputs {
  time : string;
  result : string;
  processed : bool
}.

Definition newError (w : World) (msg : string) : Thrown :=
  ThrownError {| message := msg; stack := captureStack w msg |}.

Definition boolToString (b : bool) : string :=
  if b then "true" else "false".

Definition missing_token_message : string :=
  "Input required and not supplied: token".

Definition invalid_milliseconds_message (ms_text : string) : string :=
  "Invalid milliseconds value: " ++ ms_text
    ++ ". Must be a non-negative number.".

Definition rate_limit_message : string :=
  "GitHub API rate limit exceeded. Please try again later.".

Definition not_found_message : string :=
  "Repository not found or token lacks necessary permissions.".

Definition api_error_message (original : string) : string :=
  "GitHub API error: " ++ original.

Definition unexpected_message : string := "An unexpected error occurred".

Definition result_text (example fullName : string) : string :=
  "Processed " ++ example ++ " for " ++ fullName.

(** [getActionInputs()] *)
Definition getActionInputs (w : World) : Action ActionInputs :=
  let token := getInput w "token" in
  let milliseconds := JSString.or_else (getInput w "milliseconds") "1000" in
  let exampleInput := JSString.or_else (getInput w "example-input") "default" in
  if negb (JSString.truthy token) then
    throw (newError w missing_token_message)
  else
    let ms := parseInt milliseconds 10 in
    if isNaN ms || lt_zero ms then
      throw (newError w (invalid_milliseconds_message milliseconds))
    else
      emit (Info ("Validated inputs: milliseconds=" ++ milliseconds
                  ++ ", example-input=" ++ exampleInput)) ;;
      ret {| token := token;
             milliseconds := milliseconds;
             exampleInput := exampleInput |}.

(** The [catch] clause of [processWithGitHubAPI]. *)
Definition classify (w : World) (error : Thrown) : Action ActionOutputs :=
  match error with
  | ThrownError e =>
      if JSString.includes (message e) "rate limit" then
        emit (Warning "Rate limit encountered. Consider adding retry logic.") ;;
        throw (newError w rate_limit_message)
      else if JSString.includes (message e) "Not Found" then
        throw (newError w not_found_message)
      else
        throw (newError w (api_error_message (message e)))
  | ThrownValue _ => throw error
  end.

(** The [try] block of [processWithGitHubAPI]. *)
Definition fetch_and_delay (w : World) (octokit : Octokit)
    (inputs : ActionInputs) : Action ActionOutputs :=
  emit (Info "Starting GitHub API processing...") ;;
  repo <- call (CallReposGet (context_repo_owner w) (context_repo_repo w))
               (repos_get octokit (context_repo_owner w)
                                  (context_repo_repo w)) ;;
  emit (Info ("Processing repository: " ++ full_name repo)) ;;
  let ms := parseInt (milliseconds inputs) 10 in
  emit (Info ("Processing for " ++ numberToString w ms
              ++ " milliseconds...")) ;;
  call (CallWait ms) (wait w ms) ;;
  let result := result_text (exampleInput inputs) (full_name repo) in
  ret {| time := toTimeString w; result := result; processed := true |}.

(** [processWithGitHubAPI(inputs)]; the client is built before the
    [try] block is entered. *)
Definition processWithGitHubAPI (w : World) (inputs : ActionInputs)
    : Action ActionOutputs :=
  octokit <- call (CallGetOctokit (token inputs))
                  (getOctokit w (token inputs)) ;;
  try_catch (fetch_and_delay w octokit inputs) (classify w).

(** [setActionOutputs(outputs)] *)
Definition setActionOutputs (outputs : ActionOutputs) : Action unit :=
  emit (SetOutput "time" (time outputs)) ;;
  emit (SetOutput "result" (result outputs)) ;;
  emit (SetOutput "processed" (boolToString (processed outputs))) ;;
  emit (Info ("Action completed successfully with result: "
              ++ result outputs)).

Definition stackTruthy (s : option string) : bool :=
  match s with Some text => JSString.truthy text | None => false end.

(** The [try] block of [run]. *)
Definition run_body (w : World) : Action unit :=
  emit (Info "Starting TypeScript Action...") ;;
  inputs <- getActionInputs w ;;
  outputs <- processWithGitHubAPI w inputs ;;
  setActionOutputs outputs ;;
  emit (Info "TypeScript Action completed successfully!").

(** The [catch] clause of [run]. *)
Definition run_handler (error : Thrown) : Action unit :=
  match error with
  | ThrownError e =>
      emit (ErrorLog ("Action failed: " ++ message e)) ;;
      (if stackTruthy (stack e) then
         match stack e with
         | Some text => emit (Debug ("Stack trace: " ++ text))
         | None => ret tt
         end
       else ret tt) ;;
      emit (SetFailed (message e))
  | ThrownValue _ =>
      let errorMessage := unexpected_message in
      emit (ErrorLog errorMessage) ;;
      emit (SetFailed errorMessage)
  end.

(** [run()] *)
Definition run (w : World) : Action unit :=
  try_catch (run_body w) run_handler.

(** ** Observations on a trace *)

Fixpoint outputs_set (tr : list Event) : list (string * string) :=
  match tr with
  | [] => []
  | SetOutput n v :: rest => (n, v) :: outputs_set rest
  | _ :: rest => outputs_set rest
  end.

Fixpoint failures (tr : list Event) : list string :=
  match tr with
  | [] => []
  | SetFailed m :: rest => m :: failures rest
  | _ :: rest => failures rest
  end.

Fixpoint warnings (tr : list Event) : list string :=
  match tr with
  | [] => []
  | Warning m :: rest => m :: warnings rest
  | _ :: rest => warnings rest
  end.

Fixpoint waits (tr : list Event) : list Number :=
  match tr with
  | [] => []
  | CallWait n :: rest => n :: waits rest
  | _ :: rest => waits rest
  end.

(** The value last written to the output [name], if any. *)
Fixpoint output_value (name : string) (outs : list (string * string))
    : option string :=
  match outs with
  | [] => None
  | (n, v) :: rest =>
      match output_value name rest with
      | Some later => Some later
      | None => if String.eqb n name then Some v else None
      end
  end.

(** ** The worlds of [__tests__/main.test.ts] *)

Module Fixture.

(** The text of a Number in a template literal, for the integers
    below [10^21], which are printed digit by digit. *)
Definition decimal (n : Number) : string :=
  match n with
  | NaN => "NaN"
  | Int z => DecimalString.NilZero.string_of_int (Z.to_int z)
  | PosInfinity => "Infinity"
  | NegInfinity => "-Infinity"
  end.

Fixpoint nines (n : nat) : string :=
  match n with
  | O => EmptyString
  | S k => String "9" (nines k)
  end.

(** The environment of a deployed run: the three inputs as configured. *)
Definition environment (tok ms example : option string) (name : string)
    : option string :=
  if String.eqb name "token" then tok
  else if String.eqb name "milliseconds" then ms
  else if String.eqb name "example-input" then example
  else None.

(** The default [core.getInput] mock of [beforeEach]. *)
Definition inputs (tok ms example : string) (name : string) : string :=
  if String.eqb name "token" then tok
  else if String.eqb name "milliseconds" then ms
  else if String.eqb name "example-input" then example
  else "".

Definition ownerRepo : RepoData :=
  {| full_name := "owner/repo"; repo_name := "repo"; owner_login := "owner" |}.

Definition resolving (data : RepoData) : Octokit :=
  {| repos_get := fun _ _ => Normal data |}.

Definition rejecting (t : Thrown) : Octokit :=
  {| repos_get := fun _ _ => Throw t |}.

Definition engineStack (msg : string) : option string :=
  Some ("Error: " ++ msg).

Definition error (msg : string) : Thrown :=
  ThrownError {| message := msg; stack := engineStack msg |}.

Definition world (tok ms example : string) (octokit : Octokit)
    (clock : string) : World :=
  {| getInput := inputs tok ms example;
     context_repo_owner := "owner";
     context_repo_repo := "repo";
     getOctokit := fun _ => Normal octokit;
     wait := fun _ => Normal tt;
     toTimeString := clock;
     captureStack := engineStack;
     numberToString := decimal |}.

(** A world whose inputs are read by [core.getInput]. *)
Definition deployed (raw : string -> option string) (octokit : Octokit)
    (clock : string) : World :=
  {| getInput := core_getInput raw;
     context_repo_owner := "owner";
     context_repo_repo := "repo";
     getOctokit := fun _ => Normal octokit;
     wait := fun _ => Normal tt;
     toTimeString := clock;
     captureStack := engineStack;
     numberToString := decimal |}.

Definition happy : World :=
  world "mock-github-token" "500" "test-input" (resolving ownerRepo)
        "12:34:56 GMT+0000 (Coordinated Universal Time)".

End Fixture.

(** ** Stages of a run, read off the collaborators *)

(** The message the top-level handler hands to [core.setFailed]. *)
Definition failure_message (t : Thrown) : string :=
  match t with
  | ThrownError e => message e
  | ThrownValue _ => unexpected_message
  end.

Inductive Stage : Type :=
| InputValidation
| ClientConstruction
| Fetch
| Delay
| Completed.

(** Where the pipeline stops: the first stage whose completion is a
    throw, or [Completed] when every stage completes normally. *)
Definition stops_at (w : World) : Stage :=
  match completion (getActionInputs w) with
  | Throw _ => InputValidation
  | Normal inputs =>
      match getOctokit w (token inputs) with
      | Throw _ => ClientConstruction
      | Normal octokit =>
          match repos_get octokit (context_repo_owner w)
                                  (context_repo_repo w) with
          | Throw _ => Fetch
          | Normal _ =>
              match wait w (parseInt (milliseconds inputs) 10) with
              | Throw _ => Delay
              | Normal _ => Completed
              end
          end
      end
  end.

(** The record [getActionInputs] returns when validation passes. *)
Definition resolvedInputs (w : World) : ActionInputs :=
  {| token := getInput w "token";
     milliseconds := JSString.or_else (getInput w "milliseconds") "1000";
     exampleInput := JSString.or_else (getInput w "example-input") "default" |}.

(** The negation of the guard [isNaN(ms) || ms < 0]. *)
Definition milliseconds_ok (text : string) : bool :=
  negb (isNaN (parseInt text 10) || lt_zero (parseInt text 10)).

(** [s] contains [t]: the relation [includes] decides. *)
Definition contains (s t : string) : Prop :=
  exists before after, s = before ++ t ++ after.

(** The outputs of two runs, the [time] output left out. *)
Definition untimed (outs : list (string * string)) : list (string * string) :=
  filter (fun p => negb (String.eqb (fst p) "time")) outs.

(** ** Further observations on a trace *)

(** The calls to the collaborators: client construction, fetch, delay. *)
Definition is_call (e : Event) : bool :=
  match e with
  | CallGetOctokit _ | CallReposGet _ _ | CallWait _ => true
  | _ => false
  end.

Definition is_error_log (e : Event) : bool :=
  match e with ErrorLog _ => true | _ => false end.

Definition is_debug_log (e : Event) : bool :=
  match e with Debug _ => true | _ => false end.

Definition is_client_call (e : Event) : bool :=
  match e with CallGetOctokit _ => true | _ => false end.

(** A trace without the construction of the client, the one call that
    is handed the token. *)
Definition without_client_call (tr : list Event) : list Event :=
  filter (fun e => negb (is_client_call e)) tr.

(** What the [catch] clause of [processWithGitHubAPI] throws when it
    receives [t]. *)
Definition rethrown (w : World) (t : Thrown) : Thrown :=
  match completion (classify w t) with
  | Throw t' => t'
  | Normal _ => t
  end.

(** [tail] does not begin with a decimal digit. *)
Definition no_digit_first (tail : string) : bool :=
  match tail with
  | EmptyString => true
  | String c _ =>
      match ParseInt.radixDigit 10 c with
      | Some _ => false
      | None => true
      end
  end.

(** * Properties *)

(** ** Strings *)

Section StringFacts.

Lemma prefix_split (p s : string) :
  String.prefix p s = true <-> exists rest, s = p ++ rest.
Proof.
  revert s; induction p as [|c p IH]; intros s.
  - split; [intros _; exists s; reflexivity|intros _; destruct s; reflexivity].
  - destruct s as [|d s]; cbn [String.prefix].
    + split; [discriminate|intros [rest H]; discriminate].
    + destruct (ascii_dec c d) as [->|Hne].
      * rewrite IH. split; intros [rest H]; exists rest.
        -- now rewrite H.
        -- now injection H.
      * split; [discriminate|intros [rest H]].
        injection H as H1 H2. now elim Hne.
Qed.

Lemma includes_contains (s t : string) :
  JSString.includes s t = true <-> contains s t.
Proof.
  unfold contains. induction s as [|c s IH]; cbn [JSString.includes].
  - destruct (String.prefix t "") eqn:Hp.
    + apply prefix_split in Hp as [rest H].
      split; [intros _; exists "", rest; exact H|reflexivity].
    + split; [discriminate|intros [b [a H]]].
      destruct b; [|discriminate].
      assert (String.prefix t "" = true) as Hq
        by (apply prefix_split; exists a; exact H).
      congruence.
  - destruct (String.prefix t (String c s)) eqn:Hp.
    + apply prefix_split in Hp as [rest H].
      split; [intros _; exists "", rest; exact H|reflexivity].
    + rewrite IH. split.
      * intros [b [a H]]. exists (String c b), a. now rewrite H.
      * intros [b [a H]]. destruct b as [|c' b].
        -- assert (String.prefix t (String c s) = true) as Hq
             by (apply prefix_split; exists a; exact H).
           congruence.
        -- injection H as _ H. exists b, a. exact H.
Qed.

Lemma truthy_false (s : string) : JSString.truthy s = false <-> s = "".
Proof. destruct s; cbn; split; congruence. Qed.

Lemma trimStart_whitespaceOnly (s : string) :
  JSString.whitespaceOnly s = true -> JSString.trimStart s = "".
Proof.
  induction s as [|c s IH]; cbn; [reflexivity|].
  destruct (JSString.isWhiteSpace c); cbn; [exact IH|discriminate].
Qed.

Lemma trim_whitespaceOnly (s : string) :
  JSString.whitespaceOnly s = true -> JSString.trim s = "".
Proof.
  intros H. unfold JSString.trim.
  now rewrite (trimStart_whitespaceOnly s H).
Qed.

End StringFacts.

Arguments parseInt : simpl never.
Arguments JSString.includes : simpl never.
Arguments String.append : simpl never.

(** ** Observations and traces *)

Section Observations.

Lemma outputs_set_app (a b : list Event) :
  outputs_set (a ++ b) = (outputs_set a ++ outputs_set b)%list.
Proof.
  induction a as [|e a IH]; [reflexivity|].
  destruct e; cbn; rewrite IH; reflexivity.
Qed.

Lemma failures_app (a b : list Event) :
  failures (a ++ b) = (failures a ++ failures b)%list.
Proof.
  induction a as [|e a IH]; [reflexivity|].
  destruct e; cbn; rewrite IH; reflexivity.
Qed.

Lemma warnings_app (a b : list Event) :
  warnings (a ++ b) = (warnings a ++ warnings b)%list.
Proof.
  induction a as [|e a IH]; [reflexivity|].
  destruct e; cbn; rewrite IH; reflexivity.
Qed.

Lemma waits_app (a b : list Event) :
  waits (a ++ b) = (waits a ++ waits b)%list.
Proof.
  induction a as [|e a IH]; [reflexivity|].
  destruct e; cbn; rewrite IH; reflexivity.
Qed.

Lemma waits_In (n : Number) (tr : list Event) :
  In (CallWait n) tr <-> In n (waits tr).
Proof.
  induction tr as [|e tr IH]; [reflexivity|].
  destruct e; cbn; rewrite <- IH;
    (split; [intros [H|H]; [try discriminate|]|]); auto.
  - injection H as ->. now left.
  - intros [->|H]; auto.
Qed.

End Observations.

(** ** The stages, case by case *)

Section Stages.

Variable w : World.

Local Abbreviation tokenText := (getInput w "token").
Local Abbreviation msText :=
  (JSString.or_else (getInput w "milliseconds") "1000").
Local Abbreviation exampleText :=
  (JSString.or_else (getInput w "example-input") "default").

Lemma getActionInputs_missing_token :
  JSString.truthy tokenText = false ->
  getActionInputs w = ([], Throw (newError w missing_token_message)).
Proof. intros H. unfold getActionInputs. now rewrite H. Qed.

Lemma getActionInputs_invalid_milliseconds :
  JSString.truthy tokenText = true ->
  milliseconds_ok msText = false ->
  getActionInputs w =
    ([], Throw (newError w (invalid_milliseconds_message msText))).
Proof.
  intros Ht Hm. unfold getActionInputs.
  rewrite Ht. cbn [negb].
  apply negb_false_iff in Hm. now rewrite Hm.
Qed.

Lemma getActionInputs_valid :
  JSString.truthy tokenText = true ->
  milliseconds_ok msText = true ->
  getActionInputs w =
    ([Info ("Validated inputs: milliseconds=" ++ msText
            ++ ", example-input=" ++ exampleText)],
     Normal (resolvedInputs w)).
Proof.
  intros Ht Hm. unfold getActionInputs.
  rewrite Ht. cbn [negb].
  apply negb_true_iff in Hm. now rewrite Hm.
Qed.

(** Validation passes exactly when the token is supplied and the
    defaulted milliseconds text parses to a number that is not
    negative; the record returned is then [resolvedInputs]. *)
Lemma getActionInputs_normal_inv (inputs : ActionInputs) :
  completion (getActionInputs w) = Normal inputs ->
  JSString.truthy tokenText = true
  /\ milliseconds_ok msText = true
  /\ inputs = resolvedInputs w.
Proof.
  intros H.
  destruct (JSString.truthy tokenText) eqn:Ht.
  - destruct (milliseconds_ok msText) eqn:Hm.
    + rewrite (getActionInputs_valid Ht Hm) in H. cbn in H.
      injection H as <-. auto.
    + rewrite (getActionInputs_invalid_milliseconds Ht Hm) in H.
      discriminate.
  - rewrite (getActionInputs_missing_token Ht) in H. discriminate.
Qed.

Lemma milliseconds_ok_parse (text : string) :
  milliseconds_ok text = true <->
  (exists z, parseInt text 10 = Int z /\ 0 <= z)
  \/ parseInt text 10 = PosInfinity.
Proof.
  unfold milliseconds_ok. destruct (parseInt text 10) as [|z| |]; cbn.
  - split; [discriminate|intros [[z [H _]]|H]; discriminate].
  - rewrite negb_true_iff, Z.ltb_ge. split.
    + intros H; left; exists z; auto.
    + intros [[z' [H Hz]]|H]; [congruence|discriminate].
  - split; auto.
  - split; [discriminate|intros [[z [H _]]|H]; discriminate].
Qed.

Lemma milliseconds_bad_parse (text : string) :
  milliseconds_ok text = false <->
  parseInt text 10 = NaN
  \/ (exists z, parseInt text 10 = Int z /\ z < 0)
  \/ parseInt text 10 = NegInfinity.
Proof.
  unfold milliseconds_ok. destruct (parseInt text 10) as [|z| |]; cbn.
  - split; auto.
  - rewrite negb_false_iff, Z.ltb_lt. split.
    + intros H; right; left; exists z; auto.
    + intros [H|[[z' [H Hz]]|H]]; congruence.
  - split; [discriminate|intros [H|[[z [H _]]|H]]; discriminate].
  - split; auto.
Qed.

(** The [catch] clause of [processWithGitHubAPI] always rethrows. *)
Lemma classify_eq (t : Thrown) :
  classify w t =
    match t with
    | ThrownError e =>
        if JSString.includes (message e) "rate limit" then
          ([Warning "Rate limit encountered. Consider adding retry logic."],
           Throw (newError w rate_limit_message))
        else if JSString.includes (message e) "Not Found" then
          ([], Throw (newError w not_found_message))
        else ([], Throw (newError w (api_error_message (message e))))
    | ThrownValue _ => ([], Throw t)
    end.
Proof.
  destruct t as [e|v]; cbn; [|reflexivity].
  destruct (JSString.includes (message e) "rate limit"); [reflexivity|].
  destruct (JSString.includes (message e) "Not Found"); reflexivity.
Qed.

Lemma classify_throws (t : Thrown) :
  exists t', completion (classify w t) = Throw t'
             /\ outputs_set (trace (classify w t)) = []
             /\ failures (trace (classify w t)) = []
             /\ waits (trace (classify w t)) = [].
Proof.
  rewrite classify_eq. destruct t as [e|v].
  - destruct (JSString.includes (message e) "rate limit");
      [|destruct (JSString.includes (message e) "Not Found")];
      eexists; cbn; repeat split.
  - eexists; cbn; repeat split.
Qed.

Variable inputs : ActionInputs.

Local Abbreviation owner := (context_repo_owner w).
Local Abbreviation repo := (context_repo_repo w).
Local Abbreviation ms := (parseInt (milliseconds inputs) 10).

Lemma processWithGitHubAPI_client_throws (t : Thrown) :
  getOctokit w (token inputs) = Throw t ->
  processWithGitHubAPI w inputs = ([CallGetOctokit (token inputs)], Throw t).
Proof. intros H. unfold processWithGitHubAPI. rewrite H. reflexivity. Qed.

Lemma processWithGitHubAPI_fetch_rejects (octokit : Octokit) (t : Thrown) :
  getOctokit w (token inputs) = Normal octokit ->
  repos_get octokit owner repo = Throw t ->
  processWithGitHubAPI w inputs =
    (CallGetOctokit (token inputs)
       :: Info "Starting GitHub API processing..."
       :: CallReposGet owner repo
       :: trace (classify w t),
     completion (classify w t)).
Proof.
  intros Ho Hr.
  unfold processWithGitHubAPI, fetch_and_delay.
  rewrite Ho. cbn. rewrite Hr. cbn.
  destruct (classify w t). reflexivity.
Qed.

Lemma processWithGitHubAPI_wait_rejects
    (octokit : Octokit) (data : RepoData) (t : Thrown) :
  getOctokit w (token inputs) = Normal octokit ->
  repos_get octokit owner repo = Normal data ->
  wait w ms = Throw t ->
  processWithGitHubAPI w inputs =
    (CallGetOctokit (token inputs)
       :: Info "Starting GitHub API processing..."
       :: CallReposGet owner repo
       :: Info ("Processing repository: " ++ full_name data)
       :: Info ("Processing for " ++ numberToString w ms
                ++ " milliseconds...")
       :: CallWait ms
       :: trace (classify w t),
     completion (classify w t)).
Proof.
  intros Ho Hr Hw.
  unfold processWithGitHubAPI, fetch_and_delay.
  rewrite Ho. cbn. rewrite Hr. cbn. rewrite Hw. cbn.
  destruct (classify w t). reflexivity.
Qed.

Lemma processWithGitHubAPI_resolves
    (octokit : Octokit) (data : RepoData) (u : unit) :
  getOctokit w (token inputs) = Normal octokit ->
  repos_get octokit owner repo = Normal data ->
  wait w ms = Normal u ->
  processWithGitHubAPI w inputs =
    ([CallGetOctokit (token inputs);
      Info "Starting GitHub API processing...";
      CallReposGet owner repo;
      Info ("Processing repository: " ++ full_name data);
      Info ("Processing for " ++ numberToString w ms ++ " milliseconds...");
      CallWait ms],
     Normal {| time := toTimeString w;
               result := result_text (exampleInput inputs) (full_name data);
               processed := true |}).
Proof.
  intros Ho Hr Hw.
  unfold processWithGitHubAPI, fetch_and_delay.
  rewrite Ho. cbn. rewrite Hr. cbn. rewrite Hw. reflexivity.
Qed.

End Stages.

(** ** The top-level handler and the body of [run] *)

Section Run.

Variable w : World.

Lemma run_handler_spec (t : Thrown) :
  completion (run_handler t) = Normal tt
  /\ failures (trace (run_handler t)) = [failure_message t]
  /\ outputs_set (trace (run_handler t)) = []
  /\ waits (trace (run_handler t)) = []
  /\ warnings (trace (run_handler t)) = [].
Proof.
  destruct t as [[msg [text|]]|v]; cbn; auto.
  destruct (JSString.truthy text); cbn; auto.
Qed.

Lemma run_of_throw (tr : list Event) (t : Thrown) :
  run_body w = (tr, Throw t) ->
  run w = ((tr ++ trace (run_handler t))%list, Normal tt).
Proof.
  intros H. unfold run. rewrite H. cbn.
  destruct (run_handler_spec t) as [Hc _].
  destruct (run_handler t) as [tr' c]. cbn in Hc. now subst c.
Qed.

Lemma run_of_normal (tr : list Event) (u : unit) :
  run_body w = (tr, Normal u) -> run w = (tr, Normal u).
Proof. intros H. unfold run. now rewrite H. Qed.

(** [run] catches whatever its body throws. *)
Lemma run_never_throws : completion (run w) = Normal tt.
Proof.
  destruct (run_body w) as [tr [[]|t]] eqn:H.
  - now rewrite (run_of_normal _ _ H).
  - now rewrite (run_of_throw _ _ H).
Qed.

Local Abbreviation start := (Info "Starting TypeScript Action...").
Local Abbreviation validated :=
  (Info ("Validated inputs: milliseconds=" ++ milliseconds (resolvedInputs w)
        ++ ", example-input=" ++ exampleInput (resolvedInputs w))).

Lemma run_body_missing_token :
  JSString.truthy (getInput w "token") = false ->
  run_body w = ([start], Throw (newError w missing_token_message)).
Proof.
  intros H. unfold run_body.
  now rewrite (getActionInputs_missing_token w H).
Qed.

Lemma run_body_invalid_milliseconds :
  JSString.truthy (getInput w "token") = true ->
  milliseconds_ok (milliseconds (resolvedInputs w)) = false ->
  run_body w =
    ([start],
     Throw (newError w (invalid_milliseconds_message
                          (milliseconds (resolvedInputs w))))).
Proof.
  intros Ht Hm. unfold run_body.
  now rewrite (getActionInputs_invalid_milliseconds w Ht Hm).
Qed.

Hypothesis token_supplied : JSString.truthy (getInput w "token") = true.
Hypothesis milliseconds_valid :
  milliseconds_ok (milliseconds (resolvedInputs w)) = true.

Lemma run_body_process_throws (tr : list Event) (t : Thrown) :
  processWithGitHubAPI w (resolvedInputs w) = (tr, Throw t) ->
  run_body w = (start :: validated :: tr, Throw t).
Proof.
  intros H. unfold run_body.
  rewrite (getActionInputs_valid w token_supplied milliseconds_valid).
  cbn -[processWithGitHubAPI]. now rewrite H.
Qed.

Lemma run_body_process_returns (tr : list Event) (outs : ActionOutputs) :
  processWithGitHubAPI w (resolvedInputs w) = (tr, Normal outs) ->
  run_body w =
    (start :: validated
       :: (tr ++ [SetOutput "time" (time outs);
                  SetOutput "result" (result outs);
                  SetOutput "processed" (boolToString (processed outs));
                  Info ("Action completed successfully with result: "
                        ++ result outs);
                  Info "TypeScript Action completed successfully!"])%list,
     Normal tt).
Proof.
  intros H. unfold run_body.
  rewrite (getActionInputs_valid w token_supplied milliseconds_valid).
  cbn -[processWithGitHubAPI]. now rewrite H.
Qed.

End Run.

(** ** What a run shows, by the stage it stops at *)

Section Summary.

Variable w : World.

Lemma run_failed_obs (tr : list Event) (t : Thrown) :
  run_body w = (tr, Throw t) ->
  completion (run w) = Normal tt
  /\ outputs_set (trace (run w)) = outputs_set tr
  /\ failures (trace (run w)) = (failures tr ++ [failure_message t])%list
  /\ waits (trace (run w)) = waits tr
  /\ warnings (trace (run w)) = warnings tr.
Proof.
  intros H. rewrite (run_of_throw w _ _ H). cbn [trace completion fst snd].
  destruct (run_handler_spec t) as (_ & Hf & Ho & Hw & Hg).
  rewrite outputs_set_app, failures_app, waits_app, warnings_app.
  rewrite Hf, Ho, Hw, Hg, !app_nil_r. auto.
Qed.

Lemma stops_at_missing_token :
  JSString.truthy (getInput w "token") = false ->
  stops_at w = InputValidation.
Proof.
  intros H. unfold stops_at.
  now rewrite (getActionInputs_missing_token w H).
Qed.

Lemma stops_at_invalid_milliseconds :
  JSString.truthy (getInput w "token") = true ->
  milliseconds_ok (milliseconds (resolvedInputs w)) = false ->
  stops_at w = InputValidation.
Proof.
  intros Ht Hm. unfold stops_at.
  now rewrite (getActionInputs_invalid_milliseconds w Ht Hm).
Qed.

Lemma stops_at_valid :
  JSString.truthy (getInput w "token") = true ->
  milliseconds_ok (milliseconds (resolvedInputs w)) = true ->
  stops_at w =
    match getOctokit w (getInput w "token") with
    | Throw _ => ClientConstruction
    | Normal octokit =>
        match repos_get octokit (context_repo_owner w)
                                (context_repo_repo w) with
        | Throw _ => Fetch
        | Normal _ =>
            match wait w (parseInt (milliseconds (resolvedInputs w)) 10) with
            | Throw _ => Delay
            | Normal _ => Completed
            end
        end
    end.
Proof.
  intros Ht Hm. unfold stops_at.
  now rewrite (getActionInputs_valid w Ht Hm).
Qed.

(** A run whose input validation fails. *)
Lemma run_input_failure (t : Thrown) :
  run_body w = ([Info "Starting TypeScript Action..."], Throw t) ->
  outputs_set (trace (run w)) = []
  /\ failures (trace (run w)) = [failure_message t]
  /\ waits (trace (run w)) = []
  /\ warnings (trace (run w)) = [].
Proof.
  intros H. destruct (run_failed_obs _ _ H) as (_ & Ho & Hf & Hw & Hg).
  rewrite Ho, Hf, Hw, Hg. cbn. auto.
Qed.

Hypothesis token_supplied : JSString.truthy (getInput w "token") = true.
Hypothesis milliseconds_valid :
  milliseconds_ok (milliseconds (resolvedInputs w)) = true.

Local Abbreviation inputs := (resolvedInputs w).
Local Abbreviation ms := (parseInt (milliseconds inputs) 10).

(** A run whose client construction throws. *)
Lemma run_client_failure (t : Thrown) :
  getOctokit w (token inputs) = Throw t ->
  outputs_set (trace (run w)) = []
  /\ failures (trace (run w)) = [failure_message t]
  /\ waits (trace (run w)) = []
  /\ warnings (trace (run w)) = [].
Proof.
  intros H.
  pose proof (processWithGitHubAPI_client_throws w inputs _ H) as Hp.
  pose proof (run_body_process_throws w token_supplied milliseconds_valid _ _ Hp)
    as Hb.
  destruct (run_failed_obs _ _ Hb) as (_ & Ho & Hf & Hw & Hg).
  rewrite Ho, Hf, Hw, Hg. cbn. auto.
Qed.

(** A run whose fetch rejects: what is reported is what the [catch]
    clause of [processWithGitHubAPI] rethrows. *)
Lemma run_fetch_failure (octokit : Octokit) (t : Thrown) :
  getOctokit w (token inputs) = Normal octokit ->
  repos_get octokit (context_repo_owner w) (context_repo_repo w) = Throw t ->
  exists t',
    completion (classify w t) = Throw t'
    /\ outputs_set (trace (run w)) = []
    /\ failures (trace (run w)) = [failure_message t']
    /\ waits (trace (run w)) = []
    /\ warnings (trace (run w)) = warnings (trace (classify w t)).
Proof.
  intros Hc Hr.
  pose proof (processWithGitHubAPI_fetch_rejects w inputs octokit _ Hc Hr)
    as Hp.
  destruct (classify_throws w t) as (t' & Ht' & Ho' & Hf' & Hw').
  rewrite Ht' in Hp.
  pose proof (run_body_process_throws w token_supplied milliseconds_valid _ _ Hp)
    as Hb.
  destruct (run_failed_obs _ _ Hb) as (_ & Ho & Hf & Hw & Hg).
  exists t'. rewrite Ho, Hf, Hw, Hg. cbn. rewrite Ho', Hf', Hw'. auto.
Qed.

(** A run whose delay rejects. *)
Lemma run_delay_failure (octokit : Octokit) (data : RepoData) (t : Thrown) :
  getOctokit w (token inputs) = Normal octokit ->
  repos_get octokit (context_repo_owner w) (context_repo_repo w)
    = Normal data ->
  wait w ms = Throw t ->
  exists t',
    completion (classify w t) = Throw t'
    /\ outputs_set (trace (run w)) = []
    /\ failures (trace (run w)) = [failure_message t']
    /\ waits (trace (run w)) = [ms]
    /\ warnings (trace (run w)) = warnings (trace (classify w t)).
Proof.
  intros Hc Hr Hd.
  pose proof (processWithGitHubAPI_wait_rejects w inputs octokit _ _ Hc Hr Hd)
    as Hp.
  destruct (classify_throws w t) as (t' & Ht' & Ho' & Hf' & Hw').
  rewrite Ht' in Hp.
  pose proof (run_body_process_throws w token_supplied milliseconds_valid _ _ Hp)
    as Hb.
  destruct (run_failed_obs _ _ Hb) as (_ & Ho & Hf & Hw & Hg).
  exists t'. rewrite Ho, Hf, Hw, Hg. cbn. rewrite Ho', Hf', Hw'. auto.
Qed.

(** A run that goes through. *)
Lemma run_completed (octokit : Octokit) (data : RepoData) (u : unit) :
  getOctokit w (token inputs) = Normal octokit ->
  repos_get octokit (context_repo_owner w) (context_repo_repo w)
    = Normal data ->
  wait w ms = Normal u ->
  completion (run w) = Normal tt
  /\ outputs_set (trace (run w)) =
       [("time", toTimeString w);
        ("result", result_text (exampleInput inputs) (full_name data));
        ("processed", "true")]
  /\ failures (trace (run w)) = []
  /\ waits (trace (run w)) = [ms]
  /\ warnings (trace (run w)) = [].
Proof.
  intros Hc Hr Hd.
  pose proof (processWithGitHubAPI_resolves w inputs octokit _ _ Hc Hr Hd)
    as Hp.
  pose proof (run_body_process_returns w token_supplied milliseconds_valid _ _ Hp)
    as Hb.
  rewrite (run_of_normal w _ _ Hb). cbn. auto.
Qed.

End Summary.

(** * The claims of the specification *)

(** Splits on whether input validation passes, leaving the hypotheses
    [Htoken] and [Hms] in each branch. *)
Ltac validation_cases w :=
  let Htoken := fresh "Htoken" in
  let Hms := fresh "Hms" in
  destruct (JSString.truthy (getInput w "token")) eqn:Htoken;
  [ destruct (milliseconds_ok (milliseconds (resolvedInputs w))) eqn:Hms | ].

(** C1. In every run the three outputs [time], [result] and [processed]
    are set together, in that order, exactly when no stage fails; when a
    stage fails (input validation, client construction or fetch, delay)
    no output is set and [core.setFailed] is called exactly once. *)
Theorem outputs_all_or_nothing (w : World) :
  completion (run w) = Normal tt
  /\ match stops_at w with
     | Completed =>
         (exists r,
            outputs_set (trace (run w)) =
              [("time", toTimeString w); ("result", r); ("processed", "true")])
         /\ failures (trace (run w)) = []
     | InputValidation | ClientConstruction | Fetch | Delay =>
         outputs_set (trace (run w)) = []
         /\ exists m, failures (trace (run w)) = [m]
     end.
Proof.
  split; [apply run_never_throws|].
  validation_cases w.
  - rewrite (stops_at_valid w Htoken Hms).
    destruct (getOctokit w (getInput w "token")) as [octokit|t] eqn:Hc.
    + destruct (repos_get octokit _ _) as [data|t] eqn:Hr.
      * destruct (wait w _) as [u|t] eqn:Hd.
        -- destruct (run_completed w Htoken Hms octokit data u Hc Hr Hd)
             as (_ & Ho & Hf & _).
           eauto.
        -- destruct (run_delay_failure w Htoken Hms octokit data t Hc Hr Hd)
             as (t' & _ & Ho & Hf & _).
           eauto.
      * destruct (run_fetch_failure w Htoken Hms octokit t Hc Hr)
          as (t' & _ & Ho & Hf & _).
        eauto.
    + destruct (run_client_failure w Htoken Hms t Hc) as (Ho & Hf & _).
      eauto.
  - rewrite (stops_at_invalid_milliseconds w Htoken Hms).
    pose proof (run_body_invalid_milliseconds w Htoken Hms) as Hb.
    destruct (run_input_failure w _ Hb) as (Ho & Hf & _). eauto.
  - rewrite (stops_at_missing_token w Htoken).
    pose proof (run_body_missing_token w Htoken) as Hb.
    destruct (run_input_failure w _ Hb) as (Ho & Hf & _). eauto.
Qed.

(** The whole trace of a run whose fetch rejects. *)
Lemma run_fetch_failure_trace (w : World) (octokit : Octokit) (t t' : Thrown) :
  JSString.truthy (getInput w "token") = true ->
  milliseconds_ok (milliseconds (resolvedInputs w)) = true ->
  getOctokit w (getInput w "token") = Normal octokit ->
  repos_get octokit (context_repo_owner w) (context_repo_repo w) = Throw t ->
  completion (classify w t) = Throw t' ->
  exists before,
    failures before = []
    /\ trace (run w) =
         (before ++ trace (classify w t) ++ trace (run_handler t'))%list.
Proof.
  intros Htoken Hms Hc Hr Ht'.
  pose proof (processWithGitHubAPI_fetch_rejects
                w (resolvedInputs w) octokit t Hc Hr) as Hp.
  rewrite Ht' in Hp.
  apply (run_body_process_throws w Htoken Hms) in Hp.
  rewrite (run_of_throw w _ _ Hp). cbn [trace fst].
  eexists (_ :: _ :: _ :: _ :: [_]). split; [|reflexivity]. reflexivity.
Qed.

(** C2. When the metadata fetch rejects with an [Error], its message is
    inspected in priority order.  If it contains ["rate limit"], a
    warning is emitted, then the run fails with the rate-limit message;
    this also holds when the message contains ["Not Found"] as well.
    Otherwise, if it contains ["Not Found"], the run fails with the
    not-found message.  Otherwise the run fails with ["GitHub API
    error: "] followed by the original message. *)
Theorem fetch_error_classification
    (w : World) (inputs : ActionInputs) (octokit : Octokit) (e : ErrorObject) :
  completion (getActionInputs w) = Normal inputs ->
  getOctokit w (token inputs) = Normal octokit ->
  repos_get octokit (context_repo_owner w) (context_repo_repo w)
    = Throw (ThrownError e) ->
  (contains (message e) "rate limit" ->
     failures (trace (run w)) =
       ["GitHub API rate limit exceeded. Please try again later."]
     /\ exists before after,
          trace (run w) =
            (before
               ++ Warning "Rate limit encountered. Consider adding retry logic."
               :: after)%list
          /\ failures before = []
          /\ failures after =
               ["GitHub API rate limit exceeded. Please try again later."])
  /\ (~ contains (message e) "rate limit" ->
      contains (message e) "Not Found" ->
      failures (trace (run w)) =
        ["Repository not found or token lacks necessary permissions."]
      /\ warnings (trace (run w)) = [])
  /\ (~ contains (message e) "rate limit" ->
      ~ contains (message e) "Not Found" ->
      failures (trace (run w)) = ["GitHub API error: " ++ message e]
      /\ warnings (trace (run w)) = []).
Proof.
  intros Hin Hc Hr.
  apply getActionInputs_normal_inv in Hin as (Htoken & Hms & ->).
  destruct (run_fetch_failure w Htoken Hms octokit _ Hc Hr)
    as (t' & Ht' & _ & Hf & _ & Hg).
  destruct (run_fetch_failure_trace w octokit _ t' Htoken Hms Hc Hr Ht')
    as (before & Hb & Htr).
  rewrite classify_eq in Ht', Hg, Htr.
  rewrite Hf, Hg. clear Hf Hg.
  destruct (JSString.includes (message e) "rate limit") eqn:Hrate.
  - cbn in Ht'. injection Ht' as <-.
    apply includes_contains in Hrate.
    split; [|split]; [intros _|intros Hn; now elim Hn..].
    split; [reflexivity|].
    exists before, (trace (run_handler (newError w rate_limit_message))).
    split; [exact Htr|]. split; [exact Hb|].
    now destruct (run_handler_spec (newError w rate_limit_message))
      as (_ & -> & _).
  - assert (~ contains (message e) "rate limit") as Hnr
      by (rewrite <- includes_contains; congruence).
    destruct (JSString.includes (message e) "Not Found") eqn:Hnf.
    + cbn in Ht'. injection Ht' as <-.
      apply includes_contains in Hnf.
      split; [intros H; now elim Hnr|].
      split; [intros _ _; split; reflexivity|intros _ Hn; now elim Hn].
    + assert (~ contains (message e) "Not Found") as Hnn
        by (rewrite <- includes_contains; congruence).
      cbn in Ht'. injection Ht' as <-.
      split; [intros H; now elim Hnr|].
      split; [intros _ H; now elim Hnn|intros _ _; split; reflexivity].
Qed.

Lemma fetch_error_classification_witness :
  let w := Fixture.world "mock-github-token" "500" "test-input"
             (Fixture.rejecting
                (Fixture.error "Not Found: API rate limit exceeded"))
             "12:34:56 GMT+0000" in
  failures (trace (run w)) =
    ["GitHub API rate limit exceeded. Please try again later."]
  /\ warnings (trace (run w)) =
       ["Rate limit encountered. Consider adding retry logic."].
Proof.
  intros w.
  destruct (fetch_error_classification w (resolvedInputs w)
              (Fixture.rejecting
                 (Fixture.error "Not Found: API rate limit exceeded"))
              {| message := "Not Found: API rate limit exceeded";
                 stack := Fixture.engineStack
                            "Not Found: API rate limit exceeded" |}
              eq_refl eq_refl eq_refl) as [Hrate _].
  destruct Hrate as [Hf _].
  - exists "Not Found: API ", " exceeded". reflexivity.
  - split; [exact Hf|reflexivity].
Defined.

(** ** Input validation *)

Lemma run_missing_token (w : World) :
  getInput w "token" = "" ->
  completion (getActionInputs w) = Throw (newError w missing_token_message)
  /\ failures (trace (run w)) = [missing_token_message]
  /\ outputs_set (trace (run w)) = [].
Proof.
  intros H. apply truthy_false in H.
  split; [now rewrite (getActionInputs_missing_token w H)|].
  pose proof (run_body_missing_token w H) as Hb.
  destruct (run_input_failure w _ Hb) as (Ho & Hf & _). auto.
Qed.

Lemma parseInt_default_milliseconds : parseInt "1000" 10 = Int 1000.
Proof. reflexivity. Qed.

(** Above [2^53] the parse is rounded, a tie going to the even value,
    and beyond the double range it is an infinity. *)
Example parseInt_rounds_tie_to_even :
  parseInt "9007199254740993" 10 = Int 9007199254740992
  /\ parseInt "9007199254740995" 10 = Int 9007199254740996.
Proof. split; vm_compute; reflexivity. Qed.

Example parseInt_beyond_double_range :
  parseInt (Fixture.nines 400) 10 = PosInfinity
  /\ parseInt ("-" ++ Fixture.nines 400) 10 = NegInfinity.
Proof. split; vm_compute; reflexivity. Qed.

Lemma ofInteger_exact (z : Z) :
  Z.abs z < 2 ^ 53 -> Double.ofInteger z = Int z.
Proof.
  intros Hz. unfold Double.ofInteger, Double.roundMagnitude.
  destruct (0 <=? z) eqn:Hsign.
  - apply Z.leb_le in Hsign.
    assert ((z <? 2 ^ 53) = true) as H by (apply Z.ltb_lt; lia).
    now rewrite H.
  - apply Z.leb_gt in Hsign.
    assert ((- z <? 2 ^ 53) = true) as H by (apply Z.ltb_lt; lia).
    rewrite H. now rewrite Z.opp_involutive.
Qed.

(** When the defaulted text is rejected, no default was applied: the
    text checked and echoed is the raw input itself. *)
Lemma rejected_milliseconds_is_raw (raw : string) :
  milliseconds_ok (JSString.or_else raw "1000") = false ->
  JSString.or_else raw "1000" = raw.
Proof.
  destruct raw as [|c raw]; [|reflexivity].
  cbn. unfold milliseconds_ok. rewrite parseInt_default_milliseconds.
  discriminate.
Qed.

Lemma messages_differ (text : string) :
  missing_token_message <> invalid_milliseconds_message text.
Proof.
  intros H. apply (f_equal (String.get 2)) in H.
  vm_compute in H. discriminate.
Qed.

Lemma core_getInput_blank (raw : string -> option string) (name val : string) :
  raw name = Some val ->
  JSString.whitespaceOnly val = true ->
  core_getInput raw name = "".
Proof.
  intros Hraw Hws. unfold core_getInput. rewrite Hraw.
  destruct val as [|c val]; [reflexivity|].
  now apply trim_whitespaceOnly.
Qed.

Lemma core_getInput_unset (raw : string -> option string) (name : string) :
  raw name = None -> core_getInput raw name = "".
Proof. intros Hraw. unfold core_getInput. now rewrite Hraw. Qed.

(** C3. For every token input that is empty or holds white space only,
    the run fails with ["Input required and not supplied: token"] and
    sets no output: whenever the text handed to the action is empty,
    and so whenever the token is read by [core.getInput], which trims
    it, from a value that holds white space only. *)
Theorem blank_token_rejected (w : World) :
  (getInput w "token" = ""
   \/ exists raw val,
        getInput w "token" = core_getInput raw "token"
        /\ raw "token" = Some val
        /\ JSString.whitespaceOnly val = true) ->
  failures (trace (run w)) = ["Input required and not supplied: token"]
  /\ outputs_set (trace (run w)) = [].
Proof.
  intros [H|(raw & val & Hin & Hraw & Hws)].
  - now destruct (run_missing_token w H) as (_ & Hf & Ho).
  - rewrite (core_getInput_blank raw "token" val Hraw Hws) in Hin.
    now destruct (run_missing_token w Hin) as (_ & Hf & Ho).
Qed.

Lemma blank_token_rejected_witness :
  let w := Fixture.deployed
             (Fixture.environment (Some "  ") (Some "500")
                                  (Some "test-input"))
             (Fixture.resolving Fixture.ownerRepo) "12:34:56 GMT+0000" in
  failures (trace (run w)) = ["Input required and not supplied: token"]
  /\ outputs_set (trace (run w)) = [].
Proof.
  intros w. apply (blank_token_rejected w). right.
  exists (Fixture.environment (Some "  ") (Some "500") (Some "test-input")),
         "  ".
  repeat split.
Defined.

(** C4. With a token supplied, whenever the milliseconds text, after
    defaulting, fails to parse in base 10 or parses to a negative
    number (minus infinity included), the run fails with ["Invalid milliseconds value: {raw}.
    Must be a non-negative number."], where [{raw}] is the input as the
    input source returned it, before defaulting; no output is set. *)
Theorem invalid_milliseconds_rejected (w : World) :
  getInput w "token" <> "" ->
  (parseInt (JSString.or_else (getInput w "milliseconds") "1000") 10 = NaN
   \/ (exists z,
         parseInt (JSString.or_else (getInput w "milliseconds") "1000") 10
           = Int z /\ z < 0)
   \/ parseInt (JSString.or_else (getInput w "milliseconds") "1000") 10
        = NegInfinity) ->
  failures (trace (run w)) =
    ["Invalid milliseconds value: " ++ getInput w "milliseconds"
       ++ ". Must be a non-negative number."]
  /\ outputs_set (trace (run w)) = [].
Proof.
  intros Htoken Hbad.
  assert (JSString.truthy (getInput w "token") = true) as Ht.
  { destruct (JSString.truthy _) eqn:E; [reflexivity|].
    apply truthy_false in E. contradiction. }
  apply milliseconds_bad_parse in Hbad.
  pose proof (rejected_milliseconds_is_raw _ Hbad) as Hraw.
  pose proof (run_body_invalid_milliseconds w Ht Hbad) as Hb.
  destruct (run_input_failure w _ Hb) as (Ho & Hf & _).
  rewrite Hf, Ho. cbn [failure_message newError message resolvedInputs
                         milliseconds].
  rewrite Hraw. auto.
Qed.

Lemma invalid_milliseconds_rejected_witness :
  let w := Fixture.world "mock-github-token" "-500" "valid-value"
             (Fixture.resolving Fixture.ownerRepo) "12:34:56 GMT+0000" in
  failures (trace (run w)) =
    ["Invalid milliseconds value: -500. Must be a non-negative number."]
  /\ outputs_set (trace (run w)) = [].
Proof.
  intros w. apply (invalid_milliseconds_rejected w).
  - discriminate.
  - right. left. exists (-500). split; [reflexivity|lia].
Defined.

(** C9. The token is validated before the milliseconds: when the token
    is empty and the milliseconds text is invalid as well, validation
    throws the missing-token error, and the one failure reported is
    ["Input required and not supplied: token"], which is not the
    milliseconds message. *)
Theorem token_validated_before_milliseconds (w : World) :
  getInput w "token" = "" ->
  (parseInt (JSString.or_else (getInput w "milliseconds") "1000") 10 = NaN
   \/ (exists z,
         parseInt (JSString.or_else (getInput w "milliseconds") "1000") 10
           = Int z /\ z < 0)
   \/ parseInt (JSString.or_else (getInput w "milliseconds") "1000") 10
        = NegInfinity) ->
  completion (getActionInputs w)
    = Throw (newError w "Input required and not supplied: token")
  /\ failures (trace (run w)) = ["Input required and not supplied: token"]
  /\ failures (trace (run w)) <>
       [invalid_milliseconds_message (getInput w "milliseconds")].
Proof.
  intros Htoken _.
  destruct (run_missing_token w Htoken) as (Hc & Hf & _).
  repeat split; [exact Hc|exact Hf|].
  rewrite Hf. intros H.
  apply (messages_differ (getInput w "milliseconds")).
  exact (f_equal (hd "") H).
Qed.

Lemma token_validated_before_milliseconds_witness :
  let w := Fixture.world "" "not-a-number" "valid-value"
             (Fixture.resolving Fixture.ownerRepo) "12:34:56 GMT+0000" in
  failures (trace (run w)) = ["Input required and not supplied: token"].
Proof.
  intros w.
  apply (token_validated_before_milliseconds w);
    [reflexivity|left; reflexivity].
Defined.

(** ** The body of [run] reports no failure itself *)

Lemma trace_bind {A B : Type} (m : Action A) (k : A -> Action B) :
  trace (bind m k) =
    (trace m ++ match completion m with
                | Normal a => trace (k a)
                | Throw _ => []
                end)%list.
Proof.
  destruct m as [tr [a|t]]; cbn.
  - now destruct (k a).
  - now rewrite app_nil_r.
Qed.

Lemma getActionInputs_reports_nothing (w : World) :
  failures (trace (getActionInputs w)) = [].
Proof.
  validation_cases w.
  - now rewrite (getActionInputs_valid w Htoken Hms).
  - now rewrite (getActionInputs_invalid_milliseconds w Htoken Hms).
  - now rewrite (getActionInputs_missing_token w Htoken).
Qed.

Lemma processWithGitHubAPI_reports_nothing (w : World) (inputs : ActionInputs) :
  failures (trace (processWithGitHubAPI w inputs)) = [].
Proof.
  destruct (getOctokit w (token inputs)) as [octokit|t] eqn:Hc.
  - destruct (repos_get octokit (context_repo_owner w) (context_repo_repo w))
      as [data|t] eqn:Hr.
    + destruct (wait w (parseInt (milliseconds inputs) 10)) as [u|t] eqn:Hd.
      * now rewrite (processWithGitHubAPI_resolves w inputs octokit _ _ Hc Hr Hd).
      * rewrite (processWithGitHubAPI_wait_rejects w inputs octokit _ _ Hc Hr Hd).
        now destruct (classify_throws w t) as (_ & _ & _ & Hf & _).
    + rewrite (processWithGitHubAPI_fetch_rejects w inputs octokit _ Hc Hr).
      now destruct (classify_throws w t) as (_ & _ & _ & Hf & _).
  - now rewrite (processWithGitHubAPI_client_throws w inputs _ Hc).
Qed.

Lemma run_body_reports_nothing (w : World) :
  failures (trace (run_body w)) = [].
Proof.
  unfold run_body. rewrite trace_bind, failures_app. cbn [emit completion snd].
  rewrite trace_bind, failures_app, getActionInputs_reports_nothing.
  destruct (completion (getActionInputs w)) as [inputs|t]; [|reflexivity].
  rewrite trace_bind, failures_app, processWithGitHubAPI_reports_nothing.
  destruct (completion (processWithGitHubAPI w inputs)) as [outs|t];
    reflexivity.
Qed.

(** Whatever the body throws is reported once, by its message when it
    is an [Error] and by the generic message otherwise. *)
Lemma run_failure_reported (w : World) (t : Thrown) :
  completion (run_body w) = Throw t ->
  failures (trace (run w)) = [failure_message t].
Proof.
  intros H. pose proof (run_body_reports_nothing w) as Hq.
  destruct (run_body w) as [tr c] eqn:Hb. cbn in H, Hq. subst c.
  destruct (run_failed_obs w _ _ Hb) as (_ & _ & Hf & _).
  now rewrite Hf, Hq.
Qed.

(** ** Successful runs *)

(** C5. In every successful run, with the fetch resolving to a
    repository of full name [F] and the example input resolved to [E],
    the [result] output is ["Processed E for F"] and the [processed]
    output is the text ["true"]. *)
Theorem success_outputs
    (w : World) (inputs : ActionInputs) (octokit : Octokit)
    (data : RepoData) (u : unit) :
  completion (getActionInputs w) = Normal inputs ->
  getOctokit w (token inputs) = Normal octokit ->
  repos_get octokit (context_repo_owner w) (context_repo_repo w)
    = Normal data ->
  wait w (parseInt (milliseconds inputs) 10) = Normal u ->
  exampleInput inputs
    = JSString.or_else (getInput w "example-input") "default"
  /\ outputs_set (trace (run w)) =
       [("time", toTimeString w);
        ("result",
         "Processed " ++ exampleInput inputs ++ " for " ++ full_name data);
        ("processed", "true")]
  /\ output_value "result" (outputs_set (trace (run w)))
       = Some ("Processed " ++ exampleInput inputs
                 ++ " for " ++ full_name data)
  /\ output_value "processed" (outputs_set (trace (run w))) = Some "true"
  /\ failures (trace (run w)) = [].
Proof.
  intros Hin Hc Hr Hd.
  apply getActionInputs_normal_inv in Hin as (Htoken & Hms & ->).
  destruct (run_completed w Htoken Hms octokit data u Hc Hr Hd)
    as (_ & Ho & Hf & _).
  rewrite Ho, Hf. repeat split.
Qed.

Lemma success_outputs_witness :
  outputs_set (trace (run Fixture.happy)) =
    [("time", "12:34:56 GMT+0000 (Coordinated Universal Time)");
     ("result", "Processed test-input for owner/repo");
     ("processed", "true")].
Proof.
  exact (proj1 (proj2
    (success_outputs Fixture.happy (resolvedInputs Fixture.happy)
       (Fixture.resolving Fixture.ownerRepo) Fixture.ownerRepo tt
       eq_refl eq_refl eq_refl eq_refl))).
Defined.

(** C6. With a token supplied: an empty milliseconds input is replaced
    by ["1000"], which validation accepts as the number 1000; an empty
    example input is replaced by ["default"]; and a run with an empty
    example input whose fetch resolves to the full name ["owner/repo"]
    succeeds with the result ["Processed default for owner/repo"]. *)
Theorem defaults_applied (w : World) :
  getInput w "token" <> "" ->
  (getInput w "milliseconds" = "" ->
   exists inputs,
     completion (getActionInputs w) = Normal inputs
     /\ milliseconds inputs = "1000"
     /\ parseInt (milliseconds inputs) 10 = Int 1000)
  /\ (getInput w "example-input" = "" ->
      forall inputs,
        completion (getActionInputs w) = Normal inputs ->
        exampleInput inputs = "default")
  /\ (getInput w "example-input" = "" ->
      forall inputs octokit data u,
        completion (getActionInputs w) = Normal inputs ->
        getOctokit w (token inputs) = Normal octokit ->
        repos_get octokit (context_repo_owner w) (context_repo_repo w)
          = Normal data ->
        full_name data = "owner/repo" ->
        wait w (parseInt (milliseconds inputs) 10) = Normal u ->
        output_value "result" (outputs_set (trace (run w)))
          = Some "Processed default for owner/repo"
        /\ failures (trace (run w)) = []).
Proof.
  intros Htoken.
  assert (JSString.truthy (getInput w "token") = true) as Ht.
  { destruct (JSString.truthy _) eqn:E; [reflexivity|].
    apply truthy_false in E. contradiction. }
  split; [|split].
  - intros Hms. exists (resolvedInputs w).
    assert (milliseconds (resolvedInputs w) = "1000") as Hd
      by (cbn; now rewrite Hms).
    assert (milliseconds_ok (milliseconds (resolvedInputs w)) = true) as Hok
      by (rewrite Hd; reflexivity).
    rewrite (getActionInputs_valid w Ht Hok), Hd. auto.
  - intros Hex inputs Hin.
    apply getActionInputs_normal_inv in Hin as (_ & _ & ->).
    cbn. now rewrite Hex.
  - intros Hex inputs octokit data u Hin Hc Hr Hfull Hd.
    apply getActionInputs_normal_inv in Hin as (_ & Hms & ->).
    destruct (run_completed w Ht Hms octokit data u Hc Hr Hd)
      as (_ & Ho & Hf & _).
    rewrite Ho, Hf, Hfull. cbn [resolvedInputs exampleInput].
    rewrite Hex. split; reflexivity.
Qed.

Lemma defaults_applied_witness :
  let w := Fixture.world "mock-github-token" "" ""
             (Fixture.resolving Fixture.ownerRepo) "12:34:56 GMT+0000" in
  output_value "result" (outputs_set (trace (run w)))
    = Some "Processed default for owner/repo"
  /\ waits (trace (run w)) = [Int 1000].
Proof.
  intros w.
  destruct (defaults_applied w) as (_ & _ & Hrun); [discriminate|].
  split; [|reflexivity].
  exact (proj1 (Hrun eq_refl (resolvedInputs w)
                  (Fixture.resolving Fixture.ownerRepo) Fixture.ownerRepo tt
                  eq_refl eq_refl eq_refl eq_refl eq_refl)).
Defined.

(** ** Thrown values that are not errors *)

(** C7. A value that is not an [Error], thrown by the fetch or by the
    delay, leaves [processWithGitHubAPI] unchanged; and whenever such a
    value reaches the top-level handler, the run reports the one
    failure ["An unexpected error occurred"]. *)
Theorem non_error_thrown_values (w : World) :
  (forall inputs octokit v,
     getOctokit w (token inputs) = Normal octokit ->
     repos_get octokit (context_repo_owner w) (context_repo_repo w)
       = Throw (ThrownValue v) ->
     completion (processWithGitHubAPI w inputs) = Throw (ThrownValue v))
  /\ (forall inputs octokit data v,
        getOctokit w (token inputs) = Normal octokit ->
        repos_get octokit (context_repo_owner w) (context_repo_repo w)
          = Normal data ->
        wait w (parseInt (milliseconds inputs) 10) = Throw (ThrownValue v) ->
        completion (processWithGitHubAPI w inputs) = Throw (ThrownValue v))
  /\ (forall v,
        completion (run_body w) = Throw (ThrownValue v) ->
        failures (trace (run w)) = ["An unexpected error occurred"]).
Proof.
  split; [|split].
  - intros inputs octokit v Hc Hr.
    now rewrite (processWithGitHubAPI_fetch_rejects w inputs octokit _ Hc Hr).
  - intros inputs octokit data v Hc Hr Hd.
    now rewrite
      (processWithGitHubAPI_wait_rejects w inputs octokit _ _ Hc Hr Hd).
  - intros v H. now rewrite (run_failure_reported w _ H).
Qed.

Lemma non_error_thrown_values_witness :
  let w := Fixture.world "mock-github-token" "500" "test-input"
             (Fixture.rejecting (ThrownValue (VString "boom")))
             "12:34:56 GMT+0000" in
  completion (processWithGitHubAPI w (resolvedInputs w))
    = Throw (ThrownValue (VString "boom"))
  /\ failures (trace (run w)) = ["An unexpected error occurred"].
Proof.
  intros w. destruct (non_error_thrown_values w) as (Hfetch & _ & Htop). split.
  - exact (Hfetch (resolvedInputs w)
             (Fixture.rejecting (ThrownValue (VString "boom")))
             (VString "boom") eq_refl eq_refl).
  - exact (Htop (VString "boom") eq_refl).
Defined.

(** ** The delay and the outputs, over all the stages *)

(** Splits a run by the stage it stops at: completed, delay, fetch,
    client construction, invalid milliseconds, missing token. *)
Ltac stage_cases w :=
  validation_cases w;
  [ destruct (getOctokit w (getInput w "token")) as [octokit|t] eqn:Hclient;
    [ destruct (repos_get octokit (context_repo_owner w)
                                  (context_repo_repo w))
        as [data|t] eqn:Hfetch;
      [ destruct (wait w (parseInt (milliseconds (resolvedInputs w)) 10))
          as [u|t] eqn:Hdelay | ] | ] | | ].

(** [wait] is called at most once, and only after validation passed,
    with the parse of the validated text. *)
Lemma run_waits (w : World) :
  waits (trace (run w)) = []
  \/ (JSString.truthy (getInput w "token") = true
      /\ milliseconds_ok (milliseconds (resolvedInputs w)) = true
      /\ waits (trace (run w))
           = [parseInt (milliseconds (resolvedInputs w)) 10]).
Proof.
  stage_cases w.
  - destruct (run_completed w Htoken Hms octokit data u Hclient Hfetch Hdelay)
      as (_ & _ & _ & Hw & _). auto.
  - destruct (run_delay_failure w Htoken Hms octokit data t
                Hclient Hfetch Hdelay) as (t' & _ & _ & _ & Hw & _). auto.
  - destruct (run_fetch_failure w Htoken Hms octokit t Hclient Hfetch)
      as (t' & _ & _ & _ & Hw & _). auto.
  - destruct (run_client_failure w Htoken Hms t Hclient) as (_ & _ & Hw & _).
    auto.
  - pose proof (run_body_invalid_milliseconds w Htoken Hms) as Hb.
    destruct (run_input_failure w _ Hb) as (_ & _ & Hw & _). auto.
  - pose proof (run_body_missing_token w Htoken) as Hb.
    destruct (run_input_failure w _ Hb) as (_ & _ & Hw & _). auto.
Qed.

(** The outputs of a run: none, or the three of a completed run. *)
Lemma run_outputs (w : World) :
  (stops_at w <> Completed /\ outputs_set (trace (run w)) = [])
  \/ (exists octokit data,
        stops_at w = Completed
        /\ getOctokit w (getInput w "token") = Normal octokit
        /\ repos_get octokit (context_repo_owner w) (context_repo_repo w)
             = Normal data
        /\ outputs_set (trace (run w)) =
             [("time", toTimeString w);
              ("result",
               result_text (exampleInput (resolvedInputs w)) (full_name data));
              ("processed", "true")]).
Proof.
  stage_cases w;
    [ | left; rewrite (stops_at_valid w Htoken Hms), Hclient, ?Hfetch, ?Hdelay
      .. | left; rewrite (stops_at_invalid_milliseconds w Htoken Hms)
      | left; rewrite (stops_at_missing_token w Htoken) ];
    try (split; [discriminate|]).
  - right. exists octokit, data.
    rewrite (stops_at_valid w Htoken Hms), Hclient, Hfetch, Hdelay.
    destruct (run_completed w Htoken Hms octokit data u Hclient Hfetch Hdelay)
      as (_ & Ho & _). auto.
  - now destruct (run_delay_failure w Htoken Hms octokit data t
                    Hclient Hfetch Hdelay) as (t' & _ & Ho & _).
  - now destruct (run_fetch_failure w Htoken Hms octokit t Hclient Hfetch)
      as (t' & _ & Ho & _).
  - now destruct (run_client_failure w Htoken Hms t Hclient) as (Ho & _).
  - pose proof (run_body_invalid_milliseconds w Htoken Hms) as Hb.
    now destruct (run_input_failure w _ Hb) as (Ho & _).
  - pose proof (run_body_missing_token w Htoken) as Hb.
    now destruct (run_input_failure w _ Hb) as (Ho & _).
Qed.

(** C10, as the specification states it, fails: four hundred nines
    are beyond the double range, so they parse to plus infinity, which
    is neither [NaN] nor negative; validation passes and [wait] is
    called with plus infinity, which is not an integer. *)
Lemma delay_called_with_infinity :
  let w := Fixture.deployed
             (Fixture.environment (Some "mock-github-token")
                                  (Some (Fixture.nines 400))
                                  (Some "test-input"))
             (Fixture.resolving Fixture.ownerRepo) "12:34:56 GMT+0000" in
  waits (trace (run w)) = [PosInfinity]
  /\ isInteger PosInfinity = false
  /\ failures (trace (run w)) = [].
Proof.
  cbv zeta. split; [vm_compute; reflexivity|]. split; [reflexivity|].
  vm_compute. reflexivity.
Qed.

(** C10, amended.  Whenever [wait] is called, validation has passed and
    the argument is the base-10 parse of the validated milliseconds
    text, parsed again from the record validation returned: a Number
    that is neither [NaN] nor negative, that is, an integer that is not
    negative, or plus infinity. *)
Theorem delay_argument_validated (w : World) (n : Number) :
  In (CallWait n) (trace (run w)) ->
  exists inputs,
    completion (getActionInputs w) = Normal inputs
    /\ milliseconds inputs
         = JSString.or_else (getInput w "milliseconds") "1000"
    /\ n = parseInt (milliseconds inputs) 10
    /\ isNaN n = false
    /\ lt_zero n = false
    /\ ((exists z, n = Int z /\ 0 <= z) \/ n = PosInfinity).
Proof.
  intros Hin. apply waits_In in Hin.
  destruct (run_waits w) as [Hw|(Htoken & Hms & Hw)]; rewrite Hw in Hin.
  - destruct Hin.
  - destruct Hin as [<-|[]].
    exists (resolvedInputs w).
    rewrite (getActionInputs_valid w Htoken Hms).
    repeat split.
    + unfold milliseconds_ok in Hms. apply negb_true_iff in Hms.
      now apply orb_false_iff in Hms as [H _].
    + unfold milliseconds_ok in Hms. apply negb_true_iff in Hms.
      now apply orb_false_iff in Hms as [_ H].
    + now apply milliseconds_ok_parse.
Qed.

Lemma delay_argument_validated_witness :
  exists inputs,
    completion (getActionInputs Fixture.happy) = Normal inputs
    /\ milliseconds inputs = "500"
    /\ Int 500 = parseInt (milliseconds inputs) 10
    /\ isNaN (Int 500) = false
    /\ lt_zero (Int 500) = false
    /\ ((exists z, Int 500 = Int z /\ 0 <= z) \/ Int 500 = PosInfinity).
Proof.
  apply (delay_argument_validated Fixture.happy (Int 500)).
  vm_compute. tauto.
Defined.

(** ** Two runs *)

Section TwoRuns.

Variables w1 w2 : World.

Hypothesis same_inputs : forall name, getInput w1 name = getInput w2 name.
Hypothesis same_owner : context_repo_owner w1 = context_repo_owner w2.
Hypothesis same_repo : context_repo_repo w1 = context_repo_repo w2.
Hypothesis same_client : forall tok, getOctokit w1 tok = getOctokit w2 tok.

Lemma resolvedInputs_agree : resolvedInputs w1 = resolvedInputs w2.
Proof. unfold resolvedInputs. now rewrite !same_inputs. Qed.

(** Two completed runs compose the same result text. *)
Lemma completed_results_agree (o1 o2 : Octokit) (d1 d2 : RepoData) :
  getOctokit w1 (getInput w1 "token") = Normal o1 ->
  repos_get o1 (context_repo_owner w1) (context_repo_repo w1) = Normal d1 ->
  getOctokit w2 (getInput w2 "token") = Normal o2 ->
  repos_get o2 (context_repo_owner w2) (context_repo_repo w2) = Normal d2 ->
  result_text (exampleInput (resolvedInputs w1)) (full_name d1)
    = result_text (exampleInput (resolvedInputs w2)) (full_name d2).
Proof.
  intros Hc1 Hr1 Hc2 Hr2.
  rewrite same_inputs, same_client, Hc2 in Hc1. injection Hc1 as <-.
  rewrite same_owner, same_repo, Hr2 in Hr1. injection Hr1 as <-.
  now rewrite resolvedInputs_agree.
Qed.

Hypothesis same_wait : forall n, wait w1 n = wait w2 n.

Lemma stops_at_agree : stops_at w1 = stops_at w2.
Proof.
  pose proof resolvedInputs_agree as Hres.
  validation_cases w1.
  - rewrite (stops_at_valid w1 Htoken Hms).
    rewrite same_inputs in Htoken. rewrite Hres in Hms.
    rewrite (stops_at_valid w2 Htoken Hms).
    rewrite same_inputs, same_client, same_owner, same_repo, Hres.
    destruct (getOctokit w2 _) as [o|t]; [|reflexivity].
    destruct (repos_get o _ _); [|reflexivity].
    now rewrite same_wait.
  - rewrite (stops_at_invalid_milliseconds w1 Htoken Hms).
    rewrite same_inputs in Htoken. rewrite Hres in Hms.
    now rewrite (stops_at_invalid_milliseconds w2 Htoken Hms).
  - rewrite (stops_at_missing_token w1 Htoken).
    rewrite same_inputs in Htoken.
    now rewrite (stops_at_missing_token w2 Htoken).
Qed.

End TwoRuns.

Lemma output_value_completed (name t r v : string) :
  name <> "time" ->
  output_value name [("time", t); ("result", r); ("processed", "true")]
    = Some v ->
  (name = "result" /\ v = r) \/ (name = "processed" /\ v = "true").
Proof.
  intros Hname. cbn [output_value].
  destruct (String.eqb_spec "processed" name) as [<-|Hp].
  - intros [= <-]. auto.
  - destruct (String.eqb_spec "result" name) as [<-|Hr].
    + intros [= <-]. auto.
    + destruct (String.eqb_spec "time" name) as [<-|Ht];
        [congruence|discriminate].
Qed.

(** C8. Two runs that read the same configuration inputs and the same
    repository context, and whose fetch behaves the same, agree on the
    outputs other than [time]: whatever value both set for [result] or
    for [processed] is the same; and when the delay behaves the same in
    both as well, the two runs set the same outputs, [time] apart. *)
Theorem runs_agree_on_result_and_processed (w1 w2 : World) :
  (forall name, getInput w1 name = getInput w2 name) ->
  context_repo_owner w1 = context_repo_owner w2 ->
  context_repo_repo w1 = context_repo_repo w2 ->
  (forall tok, getOctokit w1 tok = getOctokit w2 tok) ->
  (forall name v1 v2,
     name <> "time" ->
     output_value name (outputs_set (trace (run w1))) = Some v1 ->
     output_value name (outputs_set (trace (run w2))) = Some v2 ->
     v1 = v2)
  /\ ((forall n, wait w1 n = wait w2 n) ->
      untimed (outputs_set (trace (run w1)))
        = untimed (outputs_set (trace (run w2)))
      /\ output_value "result" (outputs_set (trace (run w1)))
           = output_value "result" (outputs_set (trace (run w2)))
      /\ output_value "processed" (outputs_set (trace (run w1)))
           = output_value "processed" (outputs_set (trace (run w2)))).
Proof.
  intros Hin Howner Hrepo Hclient.
  destruct (run_outputs w1) as [[Hs1 Ho1]|(o1 & d1 & Hs1 & Hc1 & Hr1 & Ho1)];
  destruct (run_outputs w2) as [[Hs2 Ho2]|(o2 & d2 & Hs2 & Hc2 & Hr2 & Ho2)];
    rewrite Ho1, Ho2.
  - split; [intros name v1 v2 _ H; discriminate|auto].
  - split; [intros name v1 v2 _ H; discriminate|].
    intros Hwait. elim Hs1.
    now rewrite (stops_at_agree w1 w2 Hin Howner Hrepo Hclient Hwait).
  - split; [intros name v1 v2 _ _ H; discriminate|].
    intros Hwait. elim Hs2.
    now rewrite <- (stops_at_agree w1 w2 Hin Howner Hrepo Hclient Hwait).
  - rewrite (completed_results_agree w1 w2 Hin Howner Hrepo Hclient
               o1 o2 d1 d2 Hc1 Hr1 Hc2 Hr2).
    split; [|intros _; repeat split].
    intros name v1 v2 Hname H1 H2.
    apply (output_value_completed _ _ _ _ Hname) in H1, H2.
    destruct H1 as [[Hn1 ->]|[Hn1 ->]], H2 as [[Hn2 ->]|[Hn2 ->]];
      congruence.
Qed.

Lemma runs_agree_on_result_and_processed_witness :
  let w1 := Fixture.world "mock-github-token" "500" "test-input"
              (Fixture.resolving Fixture.ownerRepo) "12:34:56 GMT+0000" in
  let w2 := Fixture.world "mock-github-token" "500" "test-input"
              (Fixture.resolving Fixture.ownerRepo) "12:34:57 GMT+0000" in
  output_value "time" (outputs_set (trace (run w1)))
    <> output_value "time" (outputs_set (trace (run w2)))
  /\ untimed (outputs_set (trace (run w1)))
       = untimed (outputs_set (trace (run w2)))
  /\ output_value "result" (outputs_set (trace (run w1)))
       = Some "Processed test-input for owner/repo".
Proof.
  intros w1 w2. split; [discriminate|].
  destruct (runs_agree_on_result_and_processed w1 w2) as [_ Hsame];
    try (intros; reflexivity).
  destruct Hsame as (Hu & _); [intros; reflexivity|].
  split; [exact Hu|reflexivity].
Defined.

(** * Further properties of [src/main.ts] *)

(** ** The trace of a run, stage by stage *)

Lemma classify_rethrown (w : World) (t : Thrown) :
  completion (classify w t) = Throw (rethrown w t).
Proof.
  unfold rethrown. destruct (classify_throws w t) as (t' & H & _).
  now rewrite H.
Qed.

Lemma run_handler_trace (t : Thrown) :
  trace (run_handler t) =
    match t with
    | ThrownError e =>
        (ErrorLog ("Action failed: " ++ message e)
           :: (if stackTruthy (stack e) then
                 match stack e with
                 | Some text => [Debug ("Stack trace: " ++ text)]
                 | None => []
                 end
               else [])
           ++ [SetFailed (message e)])%list
    | ThrownValue _ =>
        [ErrorLog unexpected_message; SetFailed unexpected_message]
    end.
Proof.
  destruct t as [[msg [text|]]|v]; cbn; try reflexivity.
  destruct (JSString.truthy text); reflexivity.
Qed.

(** The events of a run, in order, by the completions of the stages. *)
Lemma run_trace (w : World) :
  trace (run w) =
    Info "Starting TypeScript Action..."
    :: (if negb (JSString.truthy (getInput w "token")) then
          trace (run_handler (newError w missing_token_message))
        else if negb (milliseconds_ok (milliseconds (resolvedInputs w))) then
          trace (run_handler
                   (newError w (invalid_milliseconds_message
                                  (milliseconds (resolvedInputs w)))))
        else
          Info ("Validated inputs: milliseconds="
                ++ milliseconds (resolvedInputs w)
                ++ ", example-input=" ++ exampleInput (resolvedInputs w))
          :: CallGetOctokit (getInput w "token")
          :: match getOctokit w (getInput w "token") with
             | Throw t => trace (run_handler t)
             | Normal octokit =>
                 Info "Starting GitHub API processing..."
                 :: CallReposGet (context_repo_owner w) (context_repo_repo w)
                 :: match repos_get octokit (context_repo_owner w)
                                            (context_repo_repo w) with
                    | Throw t =>
                        (trace (classify w t)
                           ++ trace (run_handler (rethrown w t)))%list
                    | Normal data =>
                        Info ("Processing repository: " ++ full_name data)
                        :: Info ("Processing for "
                                 ++ numberToString w
                                      (parseInt (milliseconds
                                                   (resolvedInputs w)) 10)
                                 ++ " milliseconds...")
                        :: CallWait (parseInt (milliseconds
                                                 (resolvedInputs w)) 10)
                        :: match wait w (parseInt (milliseconds
                                                     (resolvedInputs w)) 10)
                           with
                           | Throw t =>
                               (trace (classify w t)
                                  ++ trace (run_handler (rethrown w t)))%list
                           | Normal _ =>
                               [SetOutput "time" (toTimeString w);
                                SetOutput "result"
                                  (result_text
                                     (exampleInput (resolvedInputs w))
                                     (full_name data));
                                SetOutput "processed" "true";
                                Info ("Action completed successfully "
                                      ++ "with result: "
                                      ++ result_text
                                           (exampleInput (resolvedInputs w))
                                           (full_name data));
                                Info "TypeScript Action completed successfully!"]
                           end
                    end
             end).
Proof.
  stage_cases w; cbn [negb].
  - pose proof (processWithGitHubAPI_resolves
                  w (resolvedInputs w) octokit data u Hclient Hfetch Hdelay)
      as Hp.
    apply (run_body_process_returns w Htoken Hms) in Hp.
    rewrite (run_of_normal w _ _ Hp). reflexivity.
  - pose proof (processWithGitHubAPI_wait_rejects
                  w (resolvedInputs w) octokit data t Hclient Hfetch Hdelay)
      as Hp.
    rewrite classify_rethrown in Hp.
    apply (run_body_process_throws w Htoken Hms) in Hp.
    rewrite (run_of_throw w _ _ Hp). reflexivity.
  - pose proof (processWithGitHubAPI_fetch_rejects
                  w (resolvedInputs w) octokit t Hclient Hfetch) as Hp.
    rewrite classify_rethrown in Hp.
    apply (run_body_process_throws w Htoken Hms) in Hp.
    rewrite (run_of_throw w _ _ Hp). reflexivity.
  - pose proof (processWithGitHubAPI_client_throws
                  w (resolvedInputs w) t Hclient) as Hp.
    apply (run_body_process_throws w Htoken Hms) in Hp.
    rewrite (run_of_throw w _ _ Hp). reflexivity.
  - rewrite (run_of_throw w _ _ (run_body_invalid_milliseconds w Htoken Hms)).
    reflexivity.
  - rewrite (run_of_throw w _ _ (run_body_missing_token w Htoken)).
    reflexivity.
Qed.

Lemma classify_trace (w : World) (t : Thrown) :
  trace (classify w t) =
    match t with
    | ThrownError e =>
        if JSString.includes (message e) "rate limit" then
          [Warning "Rate limit encountered. Consider adding retry logic."]
        else []
    | ThrownValue _ => []
    end.
Proof.
  rewrite classify_eq. destruct t as [e|v]; [|reflexivity].
  destruct (JSString.includes (message e) "rate limit"); [reflexivity|].
  destruct (JSString.includes (message e) "Not Found"); reflexivity.
Qed.

Lemma rethrown_eq (w : World) (t : Thrown) :
  rethrown w t =
    match t with
    | ThrownError e =>
        if JSString.includes (message e) "rate limit" then
          newError w rate_limit_message
        else if JSString.includes (message e) "Not Found" then
          newError w not_found_message
        else newError w (api_error_message (message e))
    | ThrownValue _ => t
    end.
Proof.
  unfold rethrown. rewrite classify_eq. destruct t as [e|v]; [|reflexivity].
  destruct (JSString.includes (message e) "rate limit"); [reflexivity|].
  destruct (JSString.includes (message e) "Not Found"); reflexivity.
Qed.

(** Rewrites the goal with the equations the case split left. *)
Ltac use_stage_equations :=
  repeat match goal with
         | H : ?l = _ |- context [?l] => rewrite H
         end.

(** Rewrites [stops_at w] with what validation decided. *)
Ltac rewrite_stage w :=
  match goal with
  | Ht : JSString.truthy (getInput w "token") = true,
    Hm : milliseconds_ok _ = true |- _ =>
      rewrite ?(stops_at_valid w Ht Hm)
  | Ht : JSString.truthy (getInput w "token") = true,
    Hm : milliseconds_ok _ = false |- _ =>
      rewrite ?(stops_at_invalid_milliseconds w Ht Hm)
  | Ht : JSString.truthy (getInput w "token") = false |- _ =>
      rewrite ?(stops_at_missing_token w Ht)
  end.

(** Splits a run by its stage and puts its trace in the goal. *)
Ltac trace_by_stage w :=
  stage_cases w; rewrite ?(run_trace w); rewrite_stage w;
  use_stage_equations; cbn [negb].

Lemma filter_run_handler (p : Event -> bool) (t : Thrown) :
  (forall m, p (ErrorLog m) = false) ->
  (forall m, p (Debug m) = false) ->
  (forall m, p (SetFailed m) = false) ->
  filter p (trace (run_handler t)) = [].
Proof.
  intros He Hd Hf. rewrite run_handler_trace.
  destruct t as [[msg [text|]]|v]; cbn [stack message stackTruthy];
    try destruct (JSString.truthy text); cbn; now rewrite ?He, ?Hd, ?Hf.
Qed.

Lemma filter_classify (p : Event -> bool) (w : World) (t : Thrown) :
  (forall m, p (Warning m) = false) ->
  filter p (trace (classify w t)) = [].
Proof.
  intros Hw. rewrite classify_trace.
  destruct t as [e|v]; [|reflexivity].
  destruct (JSString.includes (message e) "rate limit"); [|reflexivity].
  cbn. now rewrite Hw.
Qed.

(** ** The calls to the collaborators *)

(** X1. A run calls its collaborators in the order client construction,
    fetch, delay, each at most once, and stops calling at the first
    stage that fails: no call at all when input validation fails.  The
    client is built from the token as read, the fetch names the owner
    and the repository of the ambient context, and the delay receives
    the parse of the resolved milliseconds text. *)
Theorem collaborator_calls (w : World) :
  filter is_call (trace (run w)) =
    match stops_at w with
    | InputValidation => []
    | ClientConstruction => [CallGetOctokit (getInput w "token")]
    | Fetch =>
        [CallGetOctokit (getInput w "token");
         CallReposGet (context_repo_owner w) (context_repo_repo w)]
    | Delay | Completed =>
        [CallGetOctokit (getInput w "token");
         CallReposGet (context_repo_owner w) (context_repo_repo w);
         CallWait (parseInt (JSString.or_else (getInput w "milliseconds")
                                              "1000") 10)]
    end.
Proof.
  trace_by_stage w; cbn [filter is_call];
    rewrite ?filter_app, ?filter_run_handler, ?filter_classify;
    reflexivity.
Qed.

(** ** Diagnostics of a failed run *)

Lemma failures_classify (w : World) (t : Thrown) :
  failures (trace (classify w t)) = [].
Proof. now destruct (classify_throws w t) as (_ & _ & _ & H & _). Qed.

Lemma warnings_run_handler (t : Thrown) :
  warnings (trace (run_handler t)) = [].
Proof. now destruct (run_handler_spec t) as (_ & _ & _ & _ & H). Qed.

Lemma failures_run_handler (t : Thrown) :
  failures (trace (run_handler t)) = [failure_message t].
Proof. now destruct (run_handler_spec t) as (_ & H & _). Qed.

Lemma error_log_run_handler (t : Thrown) :
  filter is_error_log (trace (run_handler t)) =
    [ErrorLog match t with
              | ThrownError e => "Action failed: " ++ message e
              | ThrownValue _ => unexpected_message
              end].
Proof.
  rewrite run_handler_trace.
  destruct t as [[msg [text|]]|v]; cbn [stack message stackTruthy];
    try destruct (JSString.truthy text); reflexivity.
Qed.

(** What the body of [run] throws, by the completions of the stages. *)
Lemma run_body_completion (w : World) :
  completion (run_body w) =
    if negb (JSString.truthy (getInput w "token")) then
      Throw (newError w missing_token_message)
    else if negb (milliseconds_ok (milliseconds (resolvedInputs w))) then
      Throw (newError w (invalid_milliseconds_message
                           (milliseconds (resolvedInputs w))))
    else
      match getOctokit w (getInput w "token") with
      | Throw t => Throw t
      | Normal octokit =>
          match repos_get octokit (context_repo_owner w)
                                  (context_repo_repo w) with
          | Throw t => Throw (rethrown w t)
          | Normal _ =>
              match wait w (parseInt (milliseconds (resolvedInputs w)) 10)
              with
              | Throw t => Throw (rethrown w t)
              | Normal _ => Normal tt
              end
          end
      end.
Proof.
  stage_cases w; cbn [negb].
  - pose proof (processWithGitHubAPI_resolves
                  w (resolvedInputs w) octokit data u Hclient Hfetch Hdelay)
      as Hp.
    apply (run_body_process_returns w Htoken Hms) in Hp.
    now rewrite Hp.
  - pose proof (processWithGitHubAPI_wait_rejects
                  w (resolvedInputs w) octokit data t Hclient Hfetch Hdelay)
      as Hp.
    rewrite classify_rethrown in Hp.
    apply (run_body_process_throws w Htoken Hms) in Hp.
    now rewrite Hp.
  - pose proof (processWithGitHubAPI_fetch_rejects
                  w (resolvedInputs w) octokit t Hclient Hfetch) as Hp.
    rewrite classify_rethrown in Hp.
    apply (run_body_process_throws w Htoken Hms) in Hp.
    now rewrite Hp.
  - pose proof (processWithGitHubAPI_client_throws
                  w (resolvedInputs w) t Hclient) as Hp.
    apply (run_body_process_throws w Htoken Hms) in Hp.
    now rewrite Hp.
  - now rewrite (run_body_invalid_milliseconds w Htoken Hms).
  - now rewrite (run_body_missing_token w Htoken).
Qed.

(** Settles what a failed run reports once the value thrown is known. *)
Ltac settle_report :=
  cbn [failures filter is_error_log is_debug_log];
  rewrite ?failures_app, ?filter_app, ?failures_classify,
          ?(filter_classify is_error_log), ?failures_run_handler,
          ?error_log_run_handler by reflexivity;
  repeat split; discriminate.

(** X2. The calls to [core.error] mirror the failure signal, by the
    kind of the value the body of [run] throws.  When nothing is
    thrown, [core.error] and [core.debug] are not called and no failure
    is reported.  When an [Error] is thrown, [core.error] is called
    once, with ["Action failed: "] followed by the error's message, and
    that message is the one failure reported.  When another value is
    thrown, [core.error] is called once, with the bare message ["An
    unexpected error occurred"], which is the one failure reported. *)
Theorem error_log_mirrors_failure (w : World) :
  match completion (run_body w) with
  | Normal _ =>
      stops_at w = Completed
      /\ failures (trace (run w)) = []
      /\ filter is_error_log (trace (run w)) = []
      /\ filter is_debug_log (trace (run w)) = []
  | Throw (ThrownError e) =>
      stops_at w <> Completed
      /\ failures (trace (run w)) = [message e]
      /\ filter is_error_log (trace (run w))
           = [ErrorLog ("Action failed: " ++ message e)]
  | Throw (ThrownValue _) =>
      stops_at w <> Completed
      /\ failures (trace (run w)) = ["An unexpected error occurred"]
      /\ filter is_error_log (trace (run w))
           = [ErrorLog "An unexpected error occurred"]
  end.
Proof.
  rewrite (run_body_completion w), (run_trace w).
  trace_by_stage w.
  - repeat split.
  - destruct (rethrown w t) as [e|v]; settle_report.
  - destruct (rethrown w t) as [e|v]; settle_report.
  - destruct t as [e|v]; settle_report.
  - settle_report.
  - settle_report.
Qed.

(** X3. A warning is emitted only for a rate-limit failure: a run emits
    no warning, or it emits the one rate-limit warning and then fails
    with the rate-limit message, the fetch or the delay having
    rejected. *)
Theorem warning_only_on_rate_limit (w : World) :
  warnings (trace (run w)) = []
  \/ (warnings (trace (run w))
        = ["Rate limit encountered. Consider adding retry logic."]
      /\ failures (trace (run w))
           = ["GitHub API rate limit exceeded. Please try again later."]
      /\ (stops_at w = Fetch \/ stops_at w = Delay)).
Proof.
  trace_by_stage w; cbn [warnings failures];
    rewrite ?warnings_app, ?failures_app, ?warnings_run_handler,
            ?failures_run_handler, ?failures_classify, ?app_nil_r;
    cbn [app]; auto;
    rewrite classify_trace, rethrown_eq;
    (destruct t as [e|v]; [|now left]);
    (destruct (JSString.includes (message e) "rate limit");
     [right; repeat split; auto|now left]).
Qed.

Lemma run_handler_ends_with_failure (t : Thrown) :
  exists before,
    trace (run_handler t) = (before ++ [SetFailed (failure_message t)])%list.
Proof.
  rewrite run_handler_trace. destruct t as [e|v].
  - eexists (_ :: _). reflexivity.
  - exists [ErrorLog unexpected_message]. reflexivity.
Qed.

(** Closes a goal on the last event of a failed run. *)
Ltac close_with_handler t :=
  let before := fresh "before" in
  let H := fresh "H" in
  destruct (run_handler_ends_with_failure t) as [before H];
  rewrite H, ?app_assoc, ?app_comm_cons;
  eexists; reflexivity.

(** X4. Every run starts with the line ["Starting TypeScript
    Action..."].  A run that fails ends with its call to
    [core.setFailed]: nothing is logged or set after it.  A run that
    reports no failure ends with the line ["TypeScript Action completed
    successfully!"]. *)
Theorem run_first_and_last_event (w : World) :
  exists middle,
    trace (run w) =
      (Info "Starting TypeScript Action..."
         :: middle
         ++ [match failures (trace (run w)) with
             | m :: _ => SetFailed m
             | [] => Info "TypeScript Action completed successfully!"
             end])%list.
Proof.
  trace_by_stage w; cbn [failures];
    rewrite ?failures_app, ?failures_classify, ?failures_run_handler;
    cbn [app].
  - eexists (_ :: _ :: _ :: _ :: _ :: _ :: _ :: _ :: _ :: _ :: [_]).
    reflexivity.
  - close_with_handler (rethrown w t).
  - close_with_handler (rethrown w t).
  - close_with_handler t.
  - close_with_handler
      (newError w (invalid_milliseconds_message
                     (milliseconds (resolvedInputs w)))).
  - close_with_handler (newError w missing_token_message).
Qed.

(** ** Errors of the delay and of the client construction *)

(** X5. The [catch] clause of [processWithGitHubAPI] also covers the
    delay: when [wait] rejects with an [Error], the run fails with the
    rate-limit message (after the warning) if the message contains
    ["rate limit"], else with the not-found message if it contains
    ["Not Found"], else with ["GitHub API error: "] followed by the
    message of the delay's error; no output is set. *)
Theorem delay_error_classified
    (w : World) (inputs : ActionInputs) (octokit : Octokit)
    (data : RepoData) (e : ErrorObject) :
  completion (getActionInputs w) = Normal inputs ->
  getOctokit w (token inputs) = Normal octokit ->
  repos_get octokit (context_repo_owner w) (context_repo_repo w)
    = Normal data ->
  wait w (parseInt (milliseconds inputs) 10) = Throw (ThrownError e) ->
  failures (trace (run w)) =
    [if JSString.includes (message e) "rate limit" then
       "GitHub API rate limit exceeded. Please try again later."
     else if JSString.includes (message e) "Not Found" then
       "Repository not found or token lacks necessary permissions."
     else "GitHub API error: " ++ message e]
  /\ warnings (trace (run w)) =
       (if JSString.includes (message e) "rate limit" then
          ["Rate limit encountered. Consider adding retry logic."]
        else [])
  /\ outputs_set (trace (run w)) = [].
Proof.
  intros Hin Hc Hr Hd.
  apply getActionInputs_normal_inv in Hin as (Htoken & Hms & ->).
  destruct (run_delay_failure w Htoken Hms octokit data _ Hc Hr Hd)
    as (t' & Ht' & Ho & Hf & _ & Hg).
  rewrite Ho, Hf, Hg, classify_trace.
  rewrite classify_rethrown, rethrown_eq in Ht'. injection Ht' as <-.
  destruct (JSString.includes (message e) "rate limit"); [auto|].
  destruct (JSString.includes (message e) "Not Found"); auto.
Qed.

Lemma delay_error_classified_witness :
  let w := {| getInput := Fixture.inputs "mock-github-token" "500" "x";
              context_repo_owner := "owner";
              context_repo_repo := "repo";
              getOctokit :=
                fun _ => Normal (Fixture.resolving Fixture.ownerRepo);
              wait := fun _ =>
                Throw (Fixture.error "milliseconds is not a number");
              toTimeString := "12:34:56 GMT+0000";
              captureStack := Fixture.engineStack;
              numberToString := Fixture.decimal |} in
  failures (trace (run w))
    = ["GitHub API error: milliseconds is not a number"].
Proof.
  intros w.
  exact (proj1
    (delay_error_classified w (resolvedInputs w)
       (Fixture.resolving Fixture.ownerRepo) Fixture.ownerRepo
       {| message := "milliseconds is not a number";
          stack := Fixture.engineStack "milliseconds is not a number" |}
       eq_refl eq_refl eq_refl eq_refl)).
Defined.

(** X6. The client is built outside the [try] block: an [Error] thrown
    by [github.getOctokit] is not classified.  The run fails with that
    error's own message, whatever it contains, emits no warning, and
    makes no fetch and no delay. *)
Theorem client_error_reported_verbatim
    (w : World) (inputs : ActionInputs) (e : ErrorObject) :
  completion (getActionInputs w) = Normal inputs ->
  getOctokit w (token inputs) = Throw (ThrownError e) ->
  failures (trace (run w)) = [message e]
  /\ warnings (trace (run w)) = []
  /\ outputs_set (trace (run w)) = []
  /\ filter is_call (trace (run w)) = [CallGetOctokit (token inputs)].
Proof.
  intros Hin Hc.
  apply getActionInputs_normal_inv in Hin as (Htoken & Hms & ->).
  destruct (run_client_failure w Htoken Hms _ Hc) as (Ho & Hf & _ & Hg).
  rewrite Ho, Hf, Hg. repeat split.
  rewrite (run_trace w). cbn [resolvedInputs token milliseconds] in *.
  rewrite Htoken, Hms, Hc. cbn [negb filter is_call].
  now rewrite filter_run_handler.
Qed.

Lemma client_error_reported_verbatim_witness :
  let w := {| getInput := Fixture.inputs "mock-github-token" "500" "x";
              context_repo_owner := "owner";
              context_repo_repo := "repo";
              getOctokit := fun _ =>
                Throw (Fixture.error "API rate limit exceeded");
              wait := fun _ => Normal tt;
              toTimeString := "12:34:56 GMT+0000";
              captureStack := Fixture.engineStack;
              numberToString := Fixture.decimal |} in
  failures (trace (run w)) = ["API rate limit exceeded"]
  /\ warnings (trace (run w)) = [].
Proof.
  intros w.
  destruct (client_error_reported_verbatim w (resolvedInputs w)
              {| message := "API rate limit exceeded";
                 stack := Fixture.engineStack "API rate limit exceeded" |}
              eq_refl eq_refl) as (Hf & Hg & _).
  split; [exact Hf|exact Hg].
Defined.

(** ** The failure messages a run can report *)

(** Settles the message of what the [catch] clause rethrows. *)
Ltac rethrown_cases w t :=
  rewrite (rethrown_eq w t);
  destruct t as [e|v]; [|cbn; tauto];
  destruct (JSString.includes (message e) "rate limit"); [cbn; tauto|];
  destruct (JSString.includes (message e) "Not Found"); [cbn; tauto|];
  cbn; do 4 right; left; exists (message e); reflexivity.

(** X7. The message of a failed run is always one of: the missing-token
    message; the invalid-milliseconds message for the raw milliseconds
    input; the rate-limit message; the not-found message; ["GitHub API
    error: "] followed by a message; the generic message for a value
    that is not an [Error]; or the message of an [Error] thrown by the
    client construction. *)
Theorem failure_messages (w : World) (m : string) :
  In m (failures (trace (run w))) ->
  m = "Input required and not supplied: token"
  \/ m = "Invalid milliseconds value: " ++ getInput w "milliseconds"
         ++ ". Must be a non-negative number."
  \/ m = "GitHub API rate limit exceeded. Please try again later."
  \/ m = "Repository not found or token lacks necessary permissions."
  \/ (exists original, m = "GitHub API error: " ++ original)
  \/ m = "An unexpected error occurred"
  \/ (exists e,
        getOctokit w (getInput w "token") = Throw (ThrownError e)
        /\ m = message e).
Proof.
  trace_by_stage w; cbn [failures];
    rewrite ?failures_app, ?failures_classify, ?failures_run_handler;
    cbn [app]; (intros [<-|[]] || intros []).
  - rethrown_cases w t.
  - rethrown_cases w t.
  - destruct t as [e|v]; cbn; [|tauto].
    do 6 right. exists e. auto.
  - cbn [resolvedInputs milliseconds] in *.
    rewrite (rejected_milliseconds_is_raw _ Hms). cbn. tauto.
  - cbn. tauto.
Qed.

Lemma failure_messages_witness :
  let w := Fixture.world "mock-github-token" "500" "test-input"
             (Fixture.rejecting (Fixture.error "Bad credentials"))
             "12:34:56 GMT+0000" in
  exists original,
    failures (trace (run w)) = ["GitHub API error: " ++ original].
Proof.
  intros w.
  destruct (failure_messages w "GitHub API error: Bad credentials")
    as [H|[H|[H|[H|[H|[H|H]]]]]];
    try discriminate H.
  - left. reflexivity.
  - exists "Bad credentials". reflexivity.
  - destruct H as (e & H & _). discriminate H.
Defined.

(** ** What input validation accepts *)

(** X8. [getActionInputs] returns exactly when the token is not empty
    and the milliseconds text, ["1000"] standing in for an empty one,
    parses in base 10 to a number that is not negative: an integer from
    zero up, or plus infinity for digits beyond the double range.  The
    record it returns holds the token as read, that milliseconds text,
    and the example input with ["default"] standing in for an empty
    one. *)
Theorem validation_accepts_iff (w : World) :
  ((exists inputs, completion (getActionInputs w) = Normal inputs)
   <-> getInput w "token" <> ""
       /\ ((exists z,
             parseInt (JSString.or_else (getInput w "milliseconds") "1000")
                      10 = Int z
             /\ 0 <= z)
           \/ parseInt (JSString.or_else (getInput w "milliseconds") "1000")
                       10 = PosInfinity))
  /\ forall inputs,
       completion (getActionInputs w) = Normal inputs ->
       token inputs = getInput w "token"
       /\ milliseconds inputs
            = JSString.or_else (getInput w "milliseconds") "1000"
       /\ exampleInput inputs
            = JSString.or_else (getInput w "example-input") "default".
Proof.
  split; [split|].
  - intros [inputs H].
    apply getActionInputs_normal_inv in H as (Htoken & Hms & _).
    split.
    + intros Hempty. apply truthy_false in Hempty. congruence.
    + now apply milliseconds_ok_parse.
  - intros [Htoken Hms]. exists (resolvedInputs w).
    apply milliseconds_ok_parse in Hms.
    assert (JSString.truthy (getInput w "token") = true) as Ht.
    { destruct (JSString.truthy _) eqn:E; [reflexivity|].
      apply truthy_false in E. contradiction. }
    now rewrite (getActionInputs_valid w Ht Hms).
  - intros inputs H.
    apply getActionInputs_normal_inv in H as (_ & _ & ->). auto.
Qed.

(** ** How lenient the milliseconds parse is *)

Section Leniency.

Lemma append_cons (c : ascii) (s t : string) :
  String c s ++ t = String c (s ++ t).
Proof. reflexivity. Qed.

Lemma append_empty_l (t : string) : "" ++ t = t.
Proof. reflexivity. Qed.

Lemma trimStart_whitespace_prefix (ws s : string) :
  JSString.whitespaceOnly ws = true ->
  JSString.trimStart (ws ++ s) = JSString.trimStart s.
Proof.
  induction ws as [|c ws IH]; [reflexivity|].
  cbn [JSString.whitespaceOnly]. rewrite append_cons.
  cbn [JSString.trimStart].
  destruct (JSString.isWhiteSpace c); [exact IH|discriminate].
Qed.

Lemma trimStart_append (s tail : string) :
  JSString.trimStart s <> "" ->
  JSString.trimStart (s ++ tail) = JSString.trimStart s ++ tail.
Proof.
  induction s as [|c s IH]; [intros H; now elim H|].
  rewrite append_cons. cbn [JSString.trimStart].
  destruct (JSString.isWhiteSpace c); [exact IH|reflexivity].
Qed.

Lemma stripSign_append (s tail : string) :
  s <> "" ->
  ParseInt.stripSign (s ++ tail) =
    (fst (ParseInt.stripSign s), snd (ParseInt.stripSign s) ++ tail).
Proof.
  destruct s as [|c s]; [intros H; now elim H|intros _].
  rewrite append_cons.
  destruct c as [[] [] [] [] [] [] [] []]; reflexivity.
Qed.

(** A digit prefix already read is not extended by what follows, when
    that does not begin with a digit. *)
Lemma digits_append (s tail : string) (acc : Z) (seen : bool) (m : Z) :
  no_digit_first tail = true ->
  ParseInt.digits 10 s acc seen = Some m ->
  ParseInt.digits 10 (s ++ tail) acc seen = Some m.
Proof.
  intros Htail. revert acc seen.
  induction s as [|c s IH]; intros acc seen.
  - rewrite append_empty_l. cbn [ParseInt.digits].
    destruct seen; [|discriminate]. intros [= <-].
    destruct tail as [|c tail]; [reflexivity|].
    cbn [ParseInt.digits]. cbn [no_digit_first] in Htail.
    destruct (ParseInt.radixDigit 10 c); [discriminate|reflexivity].
  - rewrite append_cons. cbn [ParseInt.digits].
    destruct (ParseInt.radixDigit 10 c); [apply IH|auto].
Qed.

Lemma parseInt_empty_rest (s : string) :
  JSString.trimStart s = "" -> parseInt s 10 = NaN.
Proof.
  intros H. unfold parseInt, ParseInt.parseInt. now rewrite H.
Qed.

(** [parseInt] in base 10 ignores what follows the digits. *)
Lemma parseInt_ignores_tail (s tail : string) (z : Z) :
  no_digit_first tail = true ->
  parseInt s 10 = Int z ->
  parseInt (s ++ tail) 10 = Int z.
Proof.
  intros Htail Hs.
  assert (JSString.trimStart s <> "") as Hne.
  { intros H. rewrite (parseInt_empty_rest s H) in Hs. discriminate. }
  unfold parseInt, ParseInt.parseInt in *.
  rewrite (trimStart_append s tail Hne), (stripSign_append _ tail Hne).
  destruct (ParseInt.stripSign (JSString.trimStart s)) as [sign rest].
  cbn [fst snd].
  destruct (ParseInt.hexPrefix rest), (ParseInt.hexPrefix (rest ++ tail));
    cbn -[ParseInt.digits Z.mul] in *.
  all: destruct (ParseInt.digits 10 rest 0 false) as [m|] eqn:Hd;
    [|discriminate].
  all: now rewrite (digits_append rest tail 0 false m Htail Hd).
Qed.

(** [parseInt] ignores leading white space. *)
Lemma parseInt_ignores_leading_whitespace (ws s : string) (radix : Z) :
  JSString.whitespaceOnly ws = true ->
  parseInt (ws ++ s) radix = parseInt s radix.
Proof.
  intros H. unfold parseInt, ParseInt.parseInt.
  now rewrite (trimStart_whitespace_prefix ws s H).
Qed.

Lemma parseInt_whitespace_only (ws : string) :
  JSString.whitespaceOnly ws = true -> parseInt ws 10 = NaN.
Proof.
  intros H. apply parseInt_empty_rest.
  now apply trimStart_whitespaceOnly.
Qed.

End Leniency.

Lemma token_supplied_truthy (w : World) :
  getInput w "token" <> "" -> JSString.truthy (getInput w "token") = true.
Proof.
  intros H. destruct (JSString.truthy _) eqn:E; [reflexivity|].
  apply truthy_false in E. contradiction.
Qed.

Lemma or_else_parsed (text : string) (z : Z) :
  parseInt text 10 = Int z -> JSString.or_else text "1000" = text.
Proof. destruct text; [discriminate|reflexivity]. Qed.

(** X9. The milliseconds text need not be a bare number.  With a token
    supplied, a text made of white space, then a text that parses to a
    number [z] that is not negative, then anything that does not begin
    with a digit, passes validation unchanged, and the delay, when it
    is reached, is called with [z]. *)
Theorem milliseconds_parse_is_lenient
    (w : World) (ws s tail : string) (z : Z) :
  getInput w "token" <> "" ->
  getInput w "milliseconds" = ws ++ s ++ tail ->
  JSString.whitespaceOnly ws = true ->
  parseInt s 10 = Int z ->
  0 <= z ->
  no_digit_first tail = true ->
  (exists inputs,
     completion (getActionInputs w) = Normal inputs
     /\ milliseconds inputs = ws ++ s ++ tail)
  /\ forall n, In (CallWait n) (trace (run w)) -> n = Int z.
Proof.
  intros Htoken Hraw Hws Hs Hz Htail.
  apply token_supplied_truthy in Htoken.
  assert (parseInt (ws ++ s ++ tail) 10 = Int z) as Hparse.
  { rewrite (parseInt_ignores_leading_whitespace ws _ 10 Hws).
    exact (parseInt_ignores_tail s tail z Htail Hs). }
  assert (milliseconds (resolvedInputs w) = ws ++ s ++ tail) as Htext.
  { cbn [resolvedInputs milliseconds]. rewrite Hraw.
    exact (or_else_parsed _ z Hparse). }
  assert (milliseconds_ok (milliseconds (resolvedInputs w)) = true) as Hms.
  { rewrite Htext. apply milliseconds_ok_parse. eauto. }
  split.
  - exists (resolvedInputs w).
    now rewrite (getActionInputs_valid w Htoken Hms).
  - intros n Hin. apply waits_In in Hin.
    destruct (run_waits w) as [Hw|(_ & _ & Hw)]; rewrite Hw in Hin.
    + destruct Hin.
    + destruct Hin as [<-|[]]. now rewrite Htext.
Qed.

Lemma milliseconds_parse_is_lenient_witness :
  let w := Fixture.deployed
             (Fixture.environment (Some "mock-github-token") (Some " 500ms ")
                                  (Some "test-input"))
             (Fixture.resolving Fixture.ownerRepo) "12:34:56 GMT+0000" in
  (exists inputs,
     completion (getActionInputs w) = Normal inputs
     /\ milliseconds inputs = "500ms")
  /\ waits (trace (run w)) = [Int 500].
Proof.
  intros w. split; [|reflexivity].
  refine (proj1 (milliseconds_parse_is_lenient w "" "500" "ms" 500
                   _ eq_refl eq_refl eq_refl _ eq_refl)).
  - discriminate.
  - lia.
Defined.

(** X10. Read by [core.getInput], a milliseconds input that is unset,
    empty or holds white space only takes the default: with a token
    supplied, validation passes with the milliseconds text ["1000"],
    and the delay, when it is reached, is called with 1000. *)
Theorem blank_milliseconds_defaulted
    (w : World) (raw : string -> option string) :
  getInput w "token" <> "" ->
  getInput w "milliseconds" = core_getInput raw "milliseconds" ->
  (raw "milliseconds" = None
   \/ exists val,
        raw "milliseconds" = Some val
        /\ JSString.whitespaceOnly val = true) ->
  (exists inputs,
     completion (getActionInputs w) = Normal inputs
     /\ milliseconds inputs = "1000")
  /\ forall n, In (CallWait n) (trace (run w)) -> n = Int 1000.
Proof.
  intros Htoken Hin Hraw.
  apply token_supplied_truthy in Htoken.
  assert (getInput w "milliseconds" = "") as Hempty.
  { rewrite Hin. destruct Hraw as [Hraw|(val & Hraw & Hws)].
    - now apply core_getInput_unset.
    - now apply (core_getInput_blank raw _ val). }
  assert (milliseconds (resolvedInputs w) = "1000") as Htext
    by (cbn [resolvedInputs milliseconds]; now rewrite Hempty).
  assert (milliseconds_ok (milliseconds (resolvedInputs w)) = true) as Hms
    by (rewrite Htext; reflexivity).
  split.
  - exists (resolvedInputs w).
    now rewrite (getActionInputs_valid w Htoken Hms).
  - intros n Hn. apply waits_In in Hn.
    destruct (run_waits w) as [Hw|(_ & _ & Hw)]; rewrite Hw in Hn.
    + destruct Hn.
    + destruct Hn as [<-|[]]. now rewrite Htext.
Qed.

Lemma blank_milliseconds_defaulted_witness :
  let w := Fixture.deployed
             (Fixture.environment (Some "mock-github-token") (Some "  ")
                                  (Some "test-input"))
             (Fixture.resolving Fixture.ownerRepo) "12:34:56 GMT+0000" in
  (exists inputs,
     completion (getActionInputs w) = Normal inputs
     /\ milliseconds inputs = "1000")
  /\ waits (trace (run w)) = [Int 1000].
Proof.
  intros w. split; [|reflexivity].
  refine (proj1 (blank_milliseconds_defaulted w
                   (Fixture.environment (Some "mock-github-token")
                                        (Some "  ") (Some "test-input"))
                   _ eq_refl _)).
  - discriminate.
  - right. exists "  ". split; reflexivity.
Defined.

(** ** Where the token goes *)

Section Token.

Variables w1 w2 : World.

Hypothesis token1 : getInput w1 "token" <> "".
Hypothesis token2 : getInput w2 "token" <> "".
Hypothesis other_inputs :
  forall name, name <> "token" -> getInput w1 name = getInput w2 name.
Hypothesis same_owner : context_repo_owner w1 = context_repo_owner w2.
Hypothesis same_repo : context_repo_repo w1 = context_repo_repo w2.
Hypothesis same_client :
  getOctokit w1 (getInput w1 "token") = getOctokit w2 (getInput w2 "token").
Hypothesis same_wait : forall n, wait w1 n = wait w2 n.
Hypothesis same_clock : toTimeString w1 = toTimeString w2.
Hypothesis same_stack : forall m, captureStack w1 m = captureStack w2 m.
Hypothesis same_print : forall n, numberToString w1 n = numberToString w2 n.

Lemma newError_agree (m : string) : newError w1 m = newError w2 m.
Proof. unfold newError. now rewrite same_stack. Qed.

Lemma rethrown_agree (t : Thrown) : rethrown w1 t = rethrown w2 t.
Proof. rewrite !rethrown_eq. destruct t; now rewrite ?newError_agree. Qed.

Lemma classify_trace_agree (t : Thrown) :
  trace (classify w1 t) = trace (classify w2 t).
Proof. now rewrite !classify_trace. Qed.

Lemma traces_agree_but_for_the_client_call :
  without_client_call (trace (run w1)) = without_client_call (trace (run w2)).
Proof.
  rewrite !run_trace.
  rewrite (token_supplied_truthy w1 token1), (token_supplied_truthy w2 token2).
  cbn [negb resolvedInputs milliseconds exampleInput].
  rewrite (other_inputs "milliseconds"), (other_inputs "example-input")
    by discriminate.
  rewrite newError_agree, same_client, same_owner, same_repo.
  destruct (milliseconds_ok _); cbn [negb]; [|reflexivity].
  unfold without_client_call. cbn [filter is_client_call negb].
  do 2 f_equal.
  destruct (getOctokit w2 (getInput w2 "token")) as [octokit|t];
    [|reflexivity].
  cbn [filter is_client_call negb]. do 2 f_equal.
  destruct (repos_get octokit _ _) as [data|t].
  - rewrite same_print, same_wait, same_clock.
    cbn [filter is_client_call negb]. do 3 f_equal.
    destruct (wait w2 _) as [u|t]; [reflexivity|].
    now rewrite classify_trace_agree, rethrown_agree.
  - now rewrite classify_trace_agree, rethrown_agree.
Qed.

End Token.

(** X11. The token reaches nothing but the construction of the client.
    Two runs that differ in the token only, both tokens supplied, the
    client built from either behaving the same, show the same events,
    the call that builds the client apart: the same diagnostics, the
    same fetch and delay, the same outputs and the same failure. *)
Theorem token_only_reaches_client (w1 w2 : World) :
  getInput w1 "token" <> "" ->
  getInput w2 "token" <> "" ->
  (forall name, name <> "token" -> getInput w1 name = getInput w2 name) ->
  context_repo_owner w1 = context_repo_owner w2 ->
  context_repo_repo w1 = context_repo_repo w2 ->
  getOctokit w1 (getInput w1 "token") = getOctokit w2 (getInput w2 "token") ->
  (forall n, wait w1 n = wait w2 n) ->
  toTimeString w1 = toTimeString w2 ->
  (forall m, captureStack w1 m = captureStack w2 m) ->
  (forall n, numberToString w1 n = numberToString w2 n) ->
  without_client_call (trace (run w1)) = without_client_call (trace (run w2))
  /\ outputs_set (trace (run w1)) = outputs_set (trace (run w2))
  /\ failures (trace (run w1)) = failures (trace (run w2)).
Proof.
  intros H1 H2 Hin Ho Hr Hc Hw Hk Hs Hp.
  pose proof (traces_agree_but_for_the_client_call
                w1 w2 H1 H2 Hin Ho Hr Hc Hw Hk Hs Hp) as H.
  assert (forall tr, outputs_set (without_client_call tr) = outputs_set tr)
    as Hout.
  { unfold without_client_call.
    induction tr as [|e tr IH]; [reflexivity|].
    destruct e; cbn; now rewrite ?IH. }
  assert (forall tr, failures (without_client_call tr) = failures tr)
    as Hfail.
  { unfold without_client_call.
    induction tr as [|e tr IH]; [reflexivity|].
    destruct e; cbn; now rewrite ?IH. }
  repeat split; [exact H| |].
  - now rewrite <- (Hout (trace (run w1))), H, Hout.
  - now rewrite <- (Hfail (trace (run w1))), H, Hfail.
Qed.

Lemma token_only_reaches_client_witness :
  let w1 := Fixture.world "first-token" "500" "test-input"
              (Fixture.resolving Fixture.ownerRepo) "12:34:56 GMT+0000" in
  let w2 := Fixture.world "second-token" "500" "test-input"
              (Fixture.resolving Fixture.ownerRepo) "12:34:56 GMT+0000" in
  trace (run w1) <> trace (run w2)
  /\ without_client_call (trace (run w1))
       = without_client_call (trace (run w2)).
Proof.
  intros w1 w2. split; [discriminate|].
  refine (proj1 (token_only_reaches_client w1 w2 _ _ _ eq_refl eq_refl
                   eq_refl _ eq_refl _ _));
    try discriminate; try (intros; reflexivity).
  intros name Hname. unfold w1, w2, Fixture.world, getInput, Fixture.inputs.
  destruct (String.eqb_spec name "token") as [->|_];
    [now elim Hname|reflexivity].
Defined.

(** ** The stack trace that is logged *)

(** X12. An [Error] rejected by the fetch is replaced by a new one, so
    its stack is lost: the stack logged at debug level is the one the
    engine captured for the new error, logged when it is not empty,
    whatever stack the fetch's error carried. *)
Theorem original_stack_dropped
    (w : World) (inputs : ActionInputs) (octokit : Octokit) (e : ErrorObject) :
  completion (getActionInputs w) = Normal inputs ->
  getOctokit w (token inputs) = Normal octokit ->
  repos_get octokit (context_repo_owner w) (context_repo_repo w)
    = Throw (ThrownError e) ->
  filter is_debug_log (trace (run w)) =
    match captureStack w
            (if JSString.includes (message e) "rate limit" then
               "GitHub API rate limit exceeded. Please try again later."
             else if JSString.includes (message e) "Not Found" then
               "Repository not found or token lacks necessary permissions."
             else "GitHub API error: " ++ message e) with
    | Some text =>
        if JSString.truthy text then [Debug ("Stack trace: " ++ text)] else []
    | None => []
    end.
Proof.
  intros Hin Hc Hr.
  apply getActionInputs_normal_inv in Hin as (Htoken & Hms & ->).
  cbn [resolvedInputs token milliseconds] in *.
  rewrite (run_trace w). cbn [resolvedInputs token milliseconds].
  rewrite Htoken, Hms, Hc, Hr. cbn [negb filter is_debug_log].
  rewrite filter_app, filter_classify by reflexivity.
  rewrite rethrown_eq, run_handler_trace. cbn [app].
  destruct (JSString.includes (message e) "rate limit");
    [|destruct (JSString.includes (message e) "Not Found")];
    cbn [newError stack message stackTruthy];
    (destruct (captureStack w _) as [text|]; [|reflexivity]);
    cbn [stackTruthy]; destruct (JSString.truthy text); reflexivity.
Qed.

Lemma original_stack_dropped_witness :
  let w := Fixture.world "mock-github-token" "500" "test-input"
             (Fixture.rejecting
                (ThrownError {| message := "Not Found";
                                stack := Some "at the fetch" |}))
             "12:34:56 GMT+0000" in
  filter is_debug_log (trace (run w)) =
    [Debug ("Stack trace: Error: Repository not found or token lacks "
            ++ "necessary permissions.")].
Proof.
  intros w.
  exact (original_stack_dropped w (resolvedInputs w)
           (Fixture.rejecting
              (ThrownError {| message := "Not Found";
                              stack := Some "at the fetch" |}))
           {| message := "Not Found"; stack := Some "at the fetch" |}
           eq_refl eq_refl eq_refl).
Defined.
